(** * k8s-metrics-changes: identity keys, snapshot indexing and the metric differ

    Shallow embedding of the Go program in [main.go] (the [Metric] structure,
    [metricKey], the indexing loop of [loadMetrics], [compareMetrics],
    [compareLabelSlices], [equalStringSlices], [equalFloat64Slices], the
    report of [printMarkdownTable], the line handling of
    [unifiedDiffWithoutHeader] and [versionFromPath]), and of the earlier
    version of the tool keyed by a struct (module [V0]).

    Modelling choices:
    - Go [string] is a byte string: [String.string] (a list of 8-bit chars);
      Go's [<] on strings is byte-wise lexicographic: [String.compare].
    - Go [float64] is Rocq's primitive IEEE-754 binary64 [float]; Go's [!=] on
      floats is the negation of the IEEE equality [PrimFloat.eqb]
      (so NaN differs from itself and +0 equals -0).
    - [map[string]T] is stdpp's [gmap string T].  A Go [map] iterated with
      [range] yields its entries in an unspecified order: the model takes the
      iteration order as an argument, any permutation of [map_to_list].
    - [ConstLabels] is a Go map that may be [nil]: [option (gmap string string)]
      with [None] for [nil], since [reflect.DeepEqual] tells [nil] apart from an
      empty map.
    - [sort.Slice] and [sort.Strings] return a permutation of their input
      ordered by the comparison; they are modelled by stdpp's [merge_sort]. *)

From Stdlib Require Import Floats Ascii.
From stdpp Require Import base list gmap sets strings sorting pretty.

Open Scope list_scope.

(** ** The [Metric] structure *)

Record Metric := mkMetric {
  Name : string;
  Subsystem : string;
  Namespace : string;
  Help : string;
  Type_ : string;  (** [Type] in the source *)
  DeprecatedVersion : string;
  StabilityLevel : string;
  Labels : list string;
  Buckets : list float;
  Objectives : list (float * float);  (** [map[float64]float64], never read *)
  AgeBuckets : N;  (** uint32 *)
  BufCap : N;      (** uint32 *)
  MaxAge : Z;      (** int64 *)
  ConstLabels : option (gmap string string)  (** [None] is a [nil] map *)
}.

(** Go's [s != ""]. *)
Definition nonEmpty (s : string) : bool := negb (String.eqb s "").

(** [func metricKey(m Metric) string] *)
Definition metricKey (m : Metric) : string :=
  let parts : list string := [] in
  let parts := if nonEmpty (Namespace m) then parts ++ [Namespace m] else parts in
  let parts := if nonEmpty (Subsystem m) then parts ++ [Subsystem m] else parts in
  let parts := parts ++ [Name m] in
  String.concat "_" parts.

(** [type MetricKey struct] and [func (m MetricKey) String() string] of the
    earlier version of the tool. *)
Record MetricKey := mkMetricKey {
  KNamespace : string;
  KSubsystem : string;
  KName : string
}.

Definition MetricKey_String (m : MetricKey) : string :=
  let parts : list string := [] in
  let parts := if nonEmpty (KNamespace m) then parts ++ [KNamespace m] else parts in
  let parts := if nonEmpty (KSubsystem m) then parts ++ [KSubsystem m] else parts in
  let parts := parts ++ [KName m] in
  String.concat "_" parts.

(** ** Slice equality *)

(** [func equalStringSlices(a, b []string) bool] *)
Definition equalStringSlices (a b : list string) : bool :=
  if negb (Nat.eqb (length a) (length b)) then false
  else forallb (fun i => String.eqb (nth i a "") (nth i b "")) (seq 0 (length a)).

(** [func equalFloat64Slices(a, b []float64) bool]; Go's [a[i] != b[i]] is
    IEEE inequality, the negation of [PrimFloat.eqb]. *)
Definition equalFloat64Slices (a b : list float) : bool :=
  if negb (Nat.eqb (length a) (length b)) then false
  else forallb (fun i => PrimFloat.eqb (nth i a PrimFloat.zero) (nth i b PrimFloat.zero))
         (seq 0 (length a)).

(** [reflect.DeepEqual] on two [map[string]string] values: two [nil] maps are
    equal, a [nil] map differs from every non-[nil] one (even an empty one),
    and two non-[nil] maps are equal when they have the same entries. *)
Definition deepEqualStringMap (a b : option (gmap string string)) : bool :=
  match a, b with
  | None, None => true
  | Some ma, Some mb => bool_decide (ma = mb)
  | _, _ => false
  end.

(** ** [func compareLabelSlices(oldLabels, newLabels []string) string] *)

(** [fmt.Sprintf("`%s`", label)] *)
Definition quote (label : string) : string := ("`" ++ label ++ "`")%string.

(** [sort.Strings] *)
Definition sortStrings (l : list string) : list string := merge_sort String.le l.

(** [strings.Join] *)
Definition join (l : list string) (sep : string) : string := String.concat sep l.

(** The sets [oldSet], [newSet] are [map[string]bool] values holding [true]
    for every label of the slice: a [gset].  The loops [for label := range
    newSet] run in an unspecified order, which the following [sort.Strings]
    erases; [elements] is one such order. *)
Definition compareLabelSlices (oldLabels newLabels : list string) : string :=
  let oldSet : gset string := list_to_set oldLabels in
  let newSet : gset string := list_to_set newLabels in
  let added := quote <$> filter (fun label => label ∉ oldSet) (elements newSet) in
  let removed := quote <$> filter (fun label => label ∉ newSet) (elements oldSet) in
  let added := sortStrings added in
  let removed := sortStrings removed in
  let changes : list string := [] in
  let changes :=
    if Nat.ltb 0 (length added)
    then changes ++ [("Added labels: [" ++ join added ", " ++ "].")%string]
    else changes in
  let changes :=
    if Nat.ltb 0 (length removed)
    then changes ++ [("Removed labels: [" ++ join removed ", " ++ "].")%string]
    else changes in
  if Nat.eqb (length changes) 0
  then ("Labels reordered: [" ++ join oldLabels ", " ++ "] → ["
          ++ join newLabels ", " ++ "]")%string
  else join changes " <br> ".

(** ** The field comparators of [compareMetrics]

    The body of the [if oldMetric, exists := old[key]; exists] branch appends
    to [changes] one block after the other; each block is one definition. *)

Section Comparators.
Variables oldMetric newMetric : Metric.

Definition helpChange : list string :=
  if negb (String.eqb (Help oldMetric) (Help newMetric))
  then ["Help text changed."] else [].

Definition typeChange : list string :=
  if negb (String.eqb (Type_ oldMetric) (Type_ newMetric))
  then [("Type changed from `" ++ Type_ oldMetric ++ "` to `" ++ Type_ newMetric ++ "`.")%string]
  else [].

Definition stabilityLevelChange : list string :=
  if negb (String.eqb (StabilityLevel oldMetric) (StabilityLevel newMetric))
  then [("Stability level changed from `" ++ StabilityLevel oldMetric ++ "` to `"
          ++ StabilityLevel newMetric ++ "`.")%string]
  else [].

Definition deprecatedVersionChange : list string :=
  if negb (String.eqb (DeprecatedVersion oldMetric) (DeprecatedVersion newMetric)) then
    if String.eqb (DeprecatedVersion oldMetric) "" then
      [("Marked as deprecated in version `" ++ DeprecatedVersion newMetric ++ "`.")%string]
    else if String.eqb (DeprecatedVersion newMetric) "" then
      ["No longer marked as deprecated."]
    else
      [("Deprecated version changed from `" ++ DeprecatedVersion oldMetric ++ "` to `"
          ++ DeprecatedVersion newMetric ++ "`.")%string]
  else [].

(** [%d] of an unsigned or signed integer: its decimal digits. *)
Definition ageBucketsChange : list string :=
  if negb (N.eqb (AgeBuckets oldMetric) (AgeBuckets newMetric))
  then [("AgeBuckets changed from `" ++ pretty (AgeBuckets oldMetric) ++ "` to `"
          ++ pretty (AgeBuckets newMetric) ++ "`.")%string]
  else [].

Definition bufCapChange : list string :=
  if negb (N.eqb (BufCap oldMetric) (BufCap newMetric))
  then [("BufCap changed from `" ++ pretty (BufCap oldMetric) ++ "` to `"
          ++ pretty (BufCap newMetric) ++ "`.")%string]
  else [].

Definition maxAgeChange : list string :=
  if negb (Z.eqb (MaxAge oldMetric) (MaxAge newMetric))
  then [("MaxAge changed from `" ++ pretty (MaxAge oldMetric) ++ "` to `"
          ++ pretty (MaxAge newMetric) ++ "`.")%string]
  else [].

Definition constLabelsChange : list string :=
  if Bool.eqb (deepEqualStringMap (ConstLabels oldMetric) (ConstLabels newMetric)) false
  then ["ConstLabels changed."] else [].

Definition labelsChange : list string :=
  if negb (equalStringSlices (Labels oldMetric) (Labels newMetric))
  then [compareLabelSlices (Labels oldMetric) (Labels newMetric)]
  else [].

Definition bucketsChange : list string :=
  if negb (equalFloat64Slices (Buckets oldMetric) (Buckets newMetric))
  then ["Buckets changed."] else [].

(** The [changes] slice built for a key present in both snapshots. *)
Definition metricChanges : list string :=
  helpChange ++ typeChange ++ stabilityLevelChange ++ deprecatedVersionChange
  ++ ageBucketsChange ++ bufCapChange ++ maxAgeChange ++ constLabelsChange
  ++ labelsChange ++ bucketsChange.

End Comparators.

(** ** [func compareMetrics(old, new map[string]Metric) []MetricDiff] *)

Inductive DiffType := Added | Removed | Updated.

Record MetricDiff := mkMetricDiff {
  Key : string;
  Kind : DiffType;  (** [Type] in the source *)
  OldMetric : option Metric;  (** [nil] pointer is [None] *)
  NewMetric : option Metric;
  Changes : list string
}.

(** One iteration of [for key, newMetric := range new]. *)
Definition addedOrUpdatedStep (old : gmap string Metric)
    (diffs : list MetricDiff) (kv : string * Metric) : list MetricDiff :=
  let '(key, newMetric) := kv in
  match old !! key with
  | Some oldMetric =>
      let changes := metricChanges oldMetric newMetric in
      if Nat.ltb 0 (length changes)
      then diffs ++ [mkMetricDiff key Updated (Some oldMetric) (Some newMetric) changes]
      else diffs
  | None => diffs ++ [mkMetricDiff key Added None (Some newMetric) []]
  end.

(** One iteration of [for key, oldMetric := range old]. *)
Definition removedStep (new : gmap string Metric)
    (diffs : list MetricDiff) (kv : string * Metric) : list MetricDiff :=
  let '(key, oldMetric) := kv in
  match new !! key with
  | Some _ => diffs
  | None => diffs ++ [mkMetricDiff key Removed (Some oldMetric) None []]
  end.

(** The comparison [diffs[i].Key < diffs[j].Key] of [sort.Slice], taken
    reflexively: [merge_sort] returns a permutation of its input in which no
    element is followed by one of strictly smaller key, the contract of
    [sort.Slice]. *)
Definition keyLe (d1 d2 : MetricDiff) : Prop := String.le (Key d1) (Key d2).

#[global] Instance keyLe_dec : RelDecision keyLe.
Proof. intros d1 d2. unfold keyLe. apply _. Defined.

Definition sortDiffs (diffs : list MetricDiff) : list MetricDiff :=
  merge_sort keyLe diffs.

(** [compareMetrics] run with the iteration orders [newIter] of [range new]
    and [oldIter] of [range old]. *)
Definition compareMetricsIn (newIter oldIter : list (string * Metric))
    (old new : gmap string Metric) : list MetricDiff :=
  let diffs := fold_left (addedOrUpdatedStep old) newIter [] in
  let diffs := fold_left (removedStep new) oldIter diffs in
  sortDiffs diffs.

(** [compareMetrics] with the iteration order of [map_to_list]. *)
Definition compareMetrics (old new : gmap string Metric) : list MetricDiff :=
  compareMetricsIn (map_to_list new) (map_to_list old) old new.

(** ** The indexing loop of [loadMetrics]

    [loadMetrics] reads the file and decodes it as a YAML list of [Metric]
    (library code); the rest inserts every decoded record under its key. *)
Definition indexMetrics (metrics : list Metric) : gmap string Metric :=
  fold_left (fun metricMap metric => <[metricKey metric := metric]> metricMap)
    metrics ∅.

(** ** Helpers for the statements *)

(** The diffs of a list carrying key [k]. *)
Definition diffsFor (k : string) (ds : list MetricDiff) : list MetricDiff :=
  filter (fun d => Key d = k) ds.

(** Go's [s1 < s2] on strings. *)
Definition strLt (s1 s2 : string) : Prop := String.compare s1 s2 = Lt.

Definition isAdded (d : MetricDiff) : bool :=
  match Kind d with Added => true | _ => false end.
Definition isRemoved (d : MetricDiff) : bool :=
  match Kind d with Removed => true | _ => false end.
Definition isUpdated (d : MetricDiff) : bool :=
  match Kind d with Updated => true | _ => false end.

(** The keys classified [Added] and [Removed]. *)
Definition addedKeys (ds : list MetricDiff) : gset string :=
  list_to_set (Key <$> filter (fun d => isAdded d = true) ds).
Definition removedKeys (ds : list MetricDiff) : gset string :=
  list_to_set (Key <$> filter (fun d => isRemoved d = true) ds).

(** A metric with every field at its zero value but the name and buckets. *)
Definition sampleMetric (name : string) (buckets : list float) : Metric :=
  mkMetric name "" "" "" "" "" "" [] buckets [] 0 0 0 None.

Definition setObjectives (m : Metric) (obj : list (float * float)) : Metric :=
  mkMetric (Name m) (Subsystem m) (Namespace m) (Help m) (Type_ m)
    (DeprecatedVersion m) (StabilityLevel m) (Labels m) (Buckets m) obj
    (AgeBuckets m) (BufCap m) (MaxAge m) (ConstLabels m).

Definition fooOld : Metric := mkMetric "foo" "" "" "x" "counter" "" "" [] [] [] 0 0 0 None.
Definition fooNew : Metric := mkMetric "foo" "" "" "x" "gauge" "" "" [] [] [] 0 0 0 None.
Definition barMetric : Metric := mkMetric "bar" "" "" "y" "counter" "" "" [] [] [] 0 0 0 None.
Definition oldSnap : gmap string Metric := indexMetrics [fooOld].
Definition newSnap : gmap string Metric := indexMetrics [fooNew; barMetric].

Definition newDiffs (old : gmap string Metric) (kv : string * Metric) : list MetricDiff :=
  addedOrUpdatedStep old [] kv.
Definition oldDiffs (new : gmap string Metric) (kv : string * Metric) : list MetricDiff :=
  removedStep new [] kv.

Definition expectedDiffs (old new : gmap string Metric) (k : string) : list MetricDiff :=
  match new !! k, old !! k with
  | Some n, None => [mkMetricDiff k Added None (Some n) []]
  | Some n, Some o =>
      if Nat.ltb 0 (length (metricChanges o n))
      then [mkMetricDiff k Updated (Some o) (Some n) (metricChanges o n)] else []
  | None, Some o => [mkMetricDiff k Removed (Some o) None []]
  | None, None => []
  end.

Definition deprecatedMetric (v : string) : Metric :=
  mkMetric "m" "" "" "" "" v "" [] [] [] 0 0 0 None.

Definition nanMetric : Metric := sampleMetric "m" [PrimFloat.nan].
Definition nanSnap : gmap string Metric := indexMetrics [nanMetric].

Definition summaryOld : Metric :=
  mkMetric "latency" "" "" "h" "summary" "" "" [] [] [(0.5%float, 0.125%float)] 0 0 0 None.
Definition summaryNew : Metric := setObjectives summaryOld [(0.75%float, 0.25%float)].

(** ** Rendering the report: [func printMarkdownTable(diffs []MetricDiff, oldVersion, newVersion string)]

    The function prints to standard output; the model returns the printed
    text.  Reading [diff.NewMetric.Type] through a [nil] pointer panics: the
    model returns [None] for a run that panics.  The body of each
    "Detailed Changes" block is the output of [unifiedDiffWithoutHeader] on
    the YAML encodings of the two records (library code and an external
    [diff] process): a parameter [detail] of the section, applied to the two
    pointers of the diff. *)

(** The newline byte and the one-byte string ["\n"]. *)
Definition nlChar : Ascii.ascii := Ascii.ascii_of_nat 10.
Definition nl : string := String nlChar EmptyString.

(** [strings.ReplaceAll(description, "|", "\\|")]: the pattern is one byte
    long, so every occurrence of it is replaced by the two bytes [\|]. *)
Fixpoint escapePipes (s : string) : string :=
  match s with
  | EmptyString => EmptyString
  | String c rest =>
      if Ascii.eqb c "|"%char
      then String "\"%char (String "|"%char (escapePipes rest))
      else String c (escapePipes rest)
  end.


(** The counting loop [switch diff.Type { case Added: added++ ... }]. *)
Definition countStep (acc : nat * nat * nat) (diff : MetricDiff) : nat * nat * nat :=
  let '(added, removed, updated) := acc in
  match Kind diff with
  | Added => (S added, removed, updated)
  | Removed => (added, S removed, updated)
  | Updated => (added, removed, S updated)
  end.

Definition countKinds (diffs : list MetricDiff) : nat * nat * nat :=
  fold_left countStep diffs (0, 0, 0).



Section Report.
Variable detail : option Metric -> option Metric -> string.


End Report.

(** ** The tail of [func unifiedDiffWithoutHeader(old, new string) string]

    The first part of the function writes the two texts to temporary files
    and runs [diff -U999999] on them (operating system and an external
    process, not modelled); the rest splits the output into lines and drops
    the first three, the [---], [+++] and [@@] header lines. *)

(** [strings.Split(s, "\n")] on the bytes of [s]. *)
Fixpoint splitLines (s : list Ascii.ascii) : list (list Ascii.ascii) :=
  match s with
  | [] => [[]]
  | c :: rest =>
      if Ascii.eqb c nlChar then [] :: splitLines rest
      else match splitLines rest with
           | line :: lines => (c :: line) :: lines
           | [] => [[c]]
           end
  end.

Definition split_nl (s : string) : list string :=
  String.string_of_list_ascii <$> splitLines (String.list_ascii_of_string s).

Definition dropDiffHeader (output : string) : string :=
  let lines := split_nl output in
  if Nat.leb (length lines) 3 then ""
  else join (drop 3 lines) nl.

(** ** [func versionFromPath(path string) string] on a Unix system

    [filepath.Base], [filepath.Ext] and [strings.TrimSuffix] with the path
    separator [/]. *)

Definition isPathSeparator (c : Ascii.ascii) : bool := Ascii.eqb c "/"%char.

Fixpoint dropWhileL (p : Ascii.ascii -> bool) (l : list Ascii.ascii) : list Ascii.ascii :=
  match l with
  | [] => []
  | c :: rest => if p c then dropWhileL p rest else l
  end.

Fixpoint takeWhileL (p : Ascii.ascii -> bool) (l : list Ascii.ascii) : list Ascii.ascii :=
  match l with
  | [] => []
  | c :: rest => if p c then c :: takeWhileL p rest else []
  end.

(** [filepath.Base]: the bytes of the path are scanned from the end, so the
    model works on the reversed byte list. *)
Definition base (path : string) : string :=
  if String.eqb path "" then "."
  else
    (* Strip trailing slashes. *)
    let rpath := dropWhileL isPathSeparator (rev (String.list_ascii_of_string path)) in
    (* Find the last element. *)
    let rpath := takeWhileL (fun c => negb (isPathSeparator c)) rpath in
    (* If empty now, it had only slashes. *)
    match rpath with
    | [] => "/"
    | _ => String.string_of_list_ascii (rev rpath)
    end.

(** The loop [for i := len(path) - 1; i >= 0 && !os.IsPathSeparator(path[i]); i--]
    of [filepath.Ext], on the reversed bytes; [seen] is [path[i+1:]]. *)
Fixpoint extScan (rpath seen : list Ascii.ascii) : list Ascii.ascii :=
  match rpath with
  | [] => []
  | c :: rest =>
      if isPathSeparator c then []
      else if Ascii.eqb c "."%char then c :: seen
      else extScan rest (c :: seen)
  end.

(** [filepath.Ext] *)
Definition ext (path : string) : string :=
  String.string_of_list_ascii (extScan (rev (String.list_ascii_of_string path)) []).

(** [strings.HasSuffix] and [strings.TrimSuffix] *)
Definition hasSuffix (s suffix : string) : bool :=
  Nat.leb (String.length suffix) (String.length s)
  && String.eqb (String.substring (String.length s - String.length suffix)
                   (String.length suffix) s) suffix.

Definition trimSuffix (s suffix : string) : string :=
  if hasSuffix s suffix
  then String.substring 0 (String.length s - String.length suffix) s
  else s.

Definition versionFromPath (path : string) : string :=
  let b := base path in
  trimSuffix b (ext b).

(** [c] does not occur in [s]. *)
Definition hasNo (c : Ascii.ascii) (s : string) : bool :=
  forallb (fun c' => negb (Ascii.eqb c' c)) (String.list_ascii_of_string s).

(** ** The earlier version of the tool ([main.go])

    Its snapshots are keyed by the struct [MetricKey] (a [gmap MetricKey]
    through the countable encoding of the three fields).  Its
    [equalStringSlices] and [equalFloat64Slices] are the same code as above. *)

#[global] Instance MetricKey_eq_dec : EqDecision MetricKey.
Proof. solve_decision. Defined.

#[global] Instance MetricKey_countable : Countable MetricKey.
Proof.
  apply (inj_countable' (fun k => (KNamespace k, KSubsystem k, KName k))
                        (fun '(ns, sub, name) => mkMetricKey ns sub name)).
  by intros [].
Defined.

Module V0.

Record Metric := mkMetric {
  Name : string;
  Namespace : string;
  Subsystem : string;
  Help : string;
  Type_ : string;  (** [Type] in the source *)
  StabilityLevel : string;
  Labels : list string;
  Buckets : list float
}.

(** The indexing loop of [loadMetrics]. *)
Definition indexMetrics (metrics : list Metric) : gmap MetricKey Metric :=
  fold_left (fun metricMap metric =>
    let key := mkMetricKey (Namespace metric) (Subsystem metric) (Name metric) in
    <[key := metric]> metricMap) metrics ∅.

(** The checks of the [if oldMetric, exists := old[key]; exists] branch. *)
Definition metricChanges (oldMetric newMetric : Metric) : list string :=
  let changes : list string := [] in
  let changes :=
    if negb (String.eqb (Help oldMetric) (Help newMetric))
    then changes ++ ["Help text changed"] else changes in
  let changes :=
    if negb (String.eqb (Type_ oldMetric) (Type_ newMetric))
    then changes ++ [("Type changed from " ++ Type_ oldMetric ++ " to " ++ Type_ newMetric)%string]
    else changes in
  let changes :=
    if negb (String.eqb (StabilityLevel oldMetric) (StabilityLevel newMetric))
    then changes ++ [("Stability level changed from " ++ StabilityLevel oldMetric ++ " to "
                      ++ StabilityLevel newMetric)%string]
    else changes in
  let changes :=
    if negb (String.eqb (Namespace oldMetric) (Namespace newMetric))
    then changes ++ [("Namespace changed from '" ++ Namespace oldMetric ++ "' to '"
                      ++ Namespace newMetric ++ "'")%string]
    else changes in
  let changes :=
    if negb (equalStringSlices (Labels oldMetric) (Labels newMetric))
    then changes ++ ["Labels changed"] else changes in
  let changes :=
    if negb (equalFloat64Slices (Buckets oldMetric) (Buckets newMetric))
    then changes ++ ["Buckets changed"] else changes in
  changes.

Inductive DiffType := Added | Removed | Modified.

Record MetricDiff := mkMetricDiff {
  Key : MetricKey;
  Kind : DiffType;  (** [Type] in the source *)
  OldMetric : option Metric;
  NewMetric : option Metric;
  Changes : list string
}.

Definition addedOrModifiedStep (old : gmap MetricKey Metric)
    (diffs : list MetricDiff) (kv : MetricKey * Metric) : list MetricDiff :=
  let '(key, newMetric) := kv in
  match old !! key with
  | Some oldMetric =>
      let changes := metricChanges oldMetric newMetric in
      if Nat.ltb 0 (length changes)
      then diffs ++ [mkMetricDiff key Modified (Some oldMetric) (Some newMetric) changes]
      else diffs
  | None => diffs ++ [mkMetricDiff key Added None (Some newMetric) []]
  end.

Definition removedStep (new : gmap MetricKey Metric)
    (diffs : list MetricDiff) (kv : MetricKey * Metric) : list MetricDiff :=
  let '(key, oldMetric) := kv in
  match new !! key with
  | Some _ => diffs
  | None => diffs ++ [mkMetricDiff key Removed (Some oldMetric) None []]
  end.

(** [diffs[i].Key.String() < diffs[j].Key.String()], taken reflexively. *)
Definition keyLe (d1 d2 : MetricDiff) : Prop :=
  String.le (MetricKey_String (Key d1)) (MetricKey_String (Key d2)).

#[global] Instance keyLe_dec : RelDecision keyLe.
Proof. intros d1 d2. unfold keyLe. apply _. Defined.

Definition compareMetricsIn (newIter oldIter : list (MetricKey * Metric))
    (old new : gmap MetricKey Metric) : list MetricDiff :=
  let diffs := fold_left (addedOrModifiedStep old) newIter [] in
  let diffs := fold_left (removedStep new) oldIter diffs in
  merge_sort keyLe diffs.

Definition compareMetrics (old new : gmap MetricKey Metric) : list MetricDiff :=
  compareMetricsIn (map_to_list new) (map_to_list old) old new.

(** [func truncateString(s string, maxLen int) string].  [strings.Fields]
    (splitting at runs of Unicode white space) is the parameter [fields].
    Slicing [s[:maxLen-3]] with a negative bound panics: [None]. *)
Section Truncate.
Variable fields : string -> list string.

(** [strings.ReplaceAll(s, old, " ")] for a one-byte [old]. *)
Fixpoint replaceByteBySpace (old : Ascii.ascii) (s : string) : string :=
  match s with
  | EmptyString => EmptyString
  | String c rest =>
      if Ascii.eqb c old then String " "%char (replaceByteBySpace old rest)
      else String c (replaceByteBySpace old rest)
  end.

Definition truncateString (s : string) (maxLen : Z) : option string :=
  let s := replaceByteBySpace nlChar s in
  let s := replaceByteBySpace (Ascii.ascii_of_nat 13) s in
  let s := join (fields s) " " in
  if Z.leb (Z.of_nat (String.length s)) maxLen then Some s
  else if Z.ltb (maxLen - 3) 0 then None
  else Some (String.substring 0 (Z.to_nat (maxLen - 3)) s ++ "...")%string.
End Truncate.

End V0.

(** Two records of the earlier version with the same key and different help
    texts, and the diff the earlier [compareMetrics] reports for them. *)
Definition v0Old : V0.Metric := V0.mkMetric "m" "ns" "" "old help" "counter" "ALPHA" [] [].
Definition v0New : V0.Metric := V0.mkMetric "m" "ns" "" "new help" "counter" "ALPHA" [] [].
Definition v0Diff : V0.MetricDiff :=
  V0.mkMetricDiff (mkMetricKey "ns" "" "m") V0.Modified (Some v0Old) (Some v0New)
    ["Help text changed"].

(** ** Theorems *)

Example compareLabelSlices_ex1 :
  compareLabelSlices ["a"; "b"] ["b"; "a"] = "Labels reordered: [a, b] → [b, a]"%string.
Proof. vm_compute. reflexivity. Qed.

Example compareLabelSlices_ex2 :
  compareLabelSlices ["a"; "b"] ["a"; "c"]
  = "Added labels: [`c`]. <br> Removed labels: [`b`]."%string.
Proof. vm_compute. reflexivity. Qed.

Example maxAge_ex :
  maxAgeChange (mkMetric "m" "" "" "" "" "" "" [] [] [] 0 0 (-5) None)
               (mkMetric "m" "" "" "" "" "" "" [] [] [] 0 0 12 None)
  = ["MaxAge changed from `-5` to `12`."%string].
Proof. vm_compute. reflexivity. Qed.

Example compareMetrics_end_to_end :
  compareMetrics oldSnap newSnap
  = [mkMetricDiff "bar" Added None (Some barMetric) [];
     mkMetricDiff "foo" Updated (Some fooOld) (Some fooNew)
       ["Type changed from `counter` to `gauge`."%string]].
Proof. vm_compute. reflexivity. Qed.

(** *** Map iteration *)

Lemma filter_key_map_to_list {A} (m : gmap string A) (l : list (string * A)) (k : string) :
  l ≡ₚ map_to_list m ->
  filter (fun kv => kv.1 = k) l =
  match m !! k with Some v => [(k, v)] | None => [] end.
Proof.
  intros Hl.
  assert (Hperm : filter (fun kv => kv.1 = k) l ≡ₚ
                  match m !! k with Some v => [(k, v)] | None => [] end).
  { rewrite Hl. apply NoDup_Permutation.
    - apply NoDup_filter, NoDup_map_to_list.
    - destruct (m !! k); [apply NoDup_singleton | apply NoDup_nil_2].
    - intros [k' v]. rewrite list_elem_of_filter, elem_of_map_to_list. simpl.
      split.
      + intros [-> Hk]. rewrite Hk. by apply list_elem_of_singleton.
      + destruct (m !! k) as [v'|] eqn:Hk; [|by intros ?%elem_of_nil].
        intros Hin. apply list_elem_of_singleton in Hin. simplify_eq. done. }
  destruct (m !! k).
  - by apply Permutation_singleton_r.
  - by apply Permutation_nil_r.
Qed.

(** *** The two loops as concatenations *)

Lemma addedOrUpdatedStep_app old diffs kv :
  addedOrUpdatedStep old diffs kv = diffs ++ newDiffs old kv.
Proof.
  destruct kv as [key newMetric]. unfold newDiffs, addedOrUpdatedStep.
  destruct (old !! key); [|done].
  destruct (Nat.ltb _ _); [done|]. by rewrite app_nil_r.
Qed.

Lemma removedStep_app new diffs kv :
  removedStep new diffs kv = diffs ++ oldDiffs new kv.
Proof.
  destruct kv as [key oldMetric]. unfold oldDiffs, removedStep.
  destruct (new !! key); [|done]. by rewrite app_nil_r.
Qed.

Lemma fold_addedOrUpdatedStep old l diffs :
  fold_left (addedOrUpdatedStep old) l diffs = diffs ++ flat_map (newDiffs old) l.
Proof.
  revert diffs. induction l as [|kv l IH]; intros diffs; simpl.
  - by rewrite app_nil_r.
  - rewrite IH, addedOrUpdatedStep_app. by rewrite app_assoc.
Qed.

Lemma fold_removedStep new l diffs :
  fold_left (removedStep new) l diffs = diffs ++ flat_map (oldDiffs new) l.
Proof.
  revert diffs. induction l as [|kv l IH]; intros diffs; simpl.
  - by rewrite app_nil_r.
  - rewrite IH, removedStep_app. by rewrite app_assoc.
Qed.

(** The diffs an iteration produces all carry the key of that iteration. *)
Lemma diffsFor_step (f : string * Metric -> list MetricDiff) (k : string) kv :
  Forall (fun d => Key d = kv.1) (f kv) ->
  diffsFor k (f kv) = if decide (kv.1 = k) then f kv else [].
Proof.
  unfold diffsFor. generalize (f kv). intros ds Hf.
  induction Hf as [|d ds Hd Hf IH]; [by case_decide|].
  rewrite filter_cons, IH. rewrite Hd. by case_decide.
Qed.

Lemma diffsFor_flat_map (f : string * Metric -> list MetricDiff) k l :
  (forall kv, Forall (fun d => Key d = kv.1) (f kv)) ->
  diffsFor k (flat_map f l) = flat_map f (filter (fun kv => kv.1 = k) l).
Proof.
  intros Hf. induction l as [|kv l IH]; [done|].
  simpl. unfold diffsFor in *. rewrite filter_app, IH.
  fold (diffsFor k (f kv)). rewrite diffsFor_step by apply Hf.
  rewrite filter_cons. by case_decide.
Qed.

Lemma newDiffs_keys old kv : Forall (fun d => Key d = kv.1) (newDiffs old kv).
Proof.
  destruct kv as [key newMetric]. unfold newDiffs, addedOrUpdatedStep.
  destruct (old !! key); [destruct (Nat.ltb _ _)|]; repeat constructor.
Qed.

Lemma oldDiffs_keys new kv : Forall (fun d => Key d = kv.1) (oldDiffs new kv).
Proof.
  destruct kv as [key oldMetric]. unfold oldDiffs, removedStep.
  destruct (new !! key); repeat constructor.
Qed.

(** *** What [compareMetrics] outputs for one key *)

Lemma diffsFor_presort old new newIter oldIter k :
  newIter ≡ₚ map_to_list new -> oldIter ≡ₚ map_to_list old ->
  diffsFor k (fold_left (removedStep new) oldIter
                (fold_left (addedOrUpdatedStep old) newIter [])) =
  expectedDiffs old new k.
Proof.
  intros Hn Ho.
  rewrite fold_removedStep, fold_addedOrUpdatedStep. simpl.
  unfold diffsFor. rewrite filter_app. fold (diffsFor k (flat_map (newDiffs old) newIter)).
  fold (diffsFor k (flat_map (oldDiffs new) oldIter)).
  rewrite !diffsFor_flat_map by (apply newDiffs_keys || apply oldDiffs_keys).
  rewrite (filter_key_map_to_list new newIter k Hn).
  rewrite (filter_key_map_to_list old oldIter k Ho).
  unfold expectedDiffs, newDiffs, oldDiffs, addedOrUpdatedStep, removedStep.
  destruct (new !! k) as [n|] eqn:Hnk, (old !! k) as [o|] eqn:Hok; simpl;
    rewrite ?Hnk, ?Hok; simpl; try done.
  destruct (Nat.ltb _ _); done.
Qed.

Lemma diffsFor_compareMetricsIn old new newIter oldIter k :
  newIter ≡ₚ map_to_list new -> oldIter ≡ₚ map_to_list old ->
  diffsFor k (compareMetricsIn newIter oldIter old new) = expectedDiffs old new k.
Proof.
  intros Hn Ho. unfold compareMetricsIn, sortDiffs.
  assert (Hp : diffsFor k (merge_sort keyLe
            (fold_left (removedStep new) oldIter
               (fold_left (addedOrUpdatedStep old) newIter [])))
          ≡ₚ expectedDiffs old new k).
  { rewrite <- (diffsFor_presort old new newIter oldIter k Hn Ho).
    unfold diffsFor. apply filter_Permutation, merge_sort_Permutation. }
  revert Hp. unfold expectedDiffs.
  destruct (new !! k), (old !! k); try destruct (Nat.ltb _ _);
    first [by intros ?%Permutation_singleton_r | by intros ?%Permutation_nil_r].
Qed.

(** *** Ordering of the output *)

#[global] Instance keyLe_trans : Transitive keyLe.
Proof. intros d1 d2 d3. unfold keyLe. intros H12 H23. by etrans. Qed.

#[global] Instance keyLe_total : Total keyLe.
Proof. intros d1 d2. unfold keyLe. apply String.le_total. Qed.

Lemma string_le_neq_lt (s1 s2 : string) :
  String.le s1 s2 -> s1 <> s2 -> strLt s1 s2.
Proof.
  unfold String.le, String.leb, strLt. intros Hle Hne.
  destruct (String.compare s1 s2) eqn:Hc; try done.
  by apply String.compare_eq_iff in Hc.
Qed.

Lemma keyLe_antisym d1 d2 : keyLe d1 d2 -> keyLe d2 d1 -> Key d1 = Key d2.
Proof. unfold keyLe. intros H12 H21. by apply (anti_symm String.le). Qed.

Lemma expectedDiffs_length old new k : length (expectedDiffs old new k) <= 1.
Proof.
  unfold expectedDiffs.
  destruct (new !! k), (old !! k); try destruct (Nat.ltb _ _); simpl; lia.
Qed.

Lemma diffsFor_cons_self d ds : diffsFor (Key d) (d :: ds) = d :: diffsFor (Key d) ds.
Proof. unfold diffsFor. by rewrite filter_cons_True. Qed.

Lemma diffsFor_cons_length k d ds :
  length (diffsFor k ds) <= length (diffsFor k (d :: ds)).
Proof. unfold diffsFor. rewrite filter_cons. case_decide; simpl; lia. Qed.

Lemma elem_of_diffsFor k d ds : d ∈ diffsFor k ds <-> Key d = k /\ d ∈ ds.
Proof. unfold diffsFor. rewrite list_elem_of_filter. done. Qed.

Lemma nodup_keys_of_diffsFor (ds : list MetricDiff) :
  (forall k, length (diffsFor k ds) <= 1) -> NoDup (Key <$> ds).
Proof.
  induction ds as [|d ds IH]; intros Hlen; simpl; [constructor|].
  constructor.
  - intros Hin. apply list_elem_of_fmap in Hin as (d' & Hk & Hd').
    specialize (Hlen (Key d)). rewrite diffsFor_cons_self in Hlen. simpl in Hlen.
    destruct (diffsFor (Key d) ds) eqn:Hf; [|simpl in Hlen; lia].
    assert (Hin : d' ∈ diffsFor (Key d) ds) by (apply elem_of_diffsFor; by split).
    rewrite Hf in Hin. by apply elem_of_nil in Hin.
  - apply IH. intros k. etrans; [apply (diffsFor_cons_length k d)|]. apply Hlen.
Qed.

Lemma key_inj (ds : list MetricDiff) d1 d2 :
  NoDup (Key <$> ds) -> d1 ∈ ds -> d2 ∈ ds -> Key d1 = Key d2 -> d1 = d2.
Proof.
  induction ds as [|d ds IH]; intros Hnd H1 H2 Hk; [by apply elem_of_nil in H1|].
  simpl in Hnd. apply NoDup_cons in Hnd as [Hnot Hnd].
  apply elem_of_cons in H1, H2.
  destruct H1 as [->|H1], H2 as [->|H2]; try done.
  - exfalso. apply Hnot. rewrite Hk. by apply list_elem_of_fmap_2.
  - exfalso. apply Hnot. rewrite <- Hk. by apply list_elem_of_fmap_2.
  - by apply IH.
Qed.

Lemma strongly_sorted_strict (ds : list MetricDiff) :
  NoDup (Key <$> ds) -> StronglySorted keyLe ds ->
  StronglySorted (fun d1 d2 => strLt (Key d1) (Key d2)) ds.
Proof.
  intros Hnd Hs. induction Hs as [|d ds Hs IH Hall]; [constructor|].
  simpl in Hnd. apply NoDup_cons in Hnd as [Hnot Hnd].
  constructor; [by apply IH|].
  rewrite Forall_forall in Hall |- *. intros d' Hd'.
  apply string_le_neq_lt; [by apply Hall|].
  intros Heq. apply Hnot. rewrite Heq. by apply list_elem_of_fmap_2.
Qed.

(** Two duplicate-free key-ordered lists with the same diffs for every key are
    equal. *)
Lemma sorted_unique_by_key (ds1 ds2 : list MetricDiff) :
  (forall k, diffsFor k ds1 = diffsFor k ds2) ->
  NoDup (Key <$> ds1) -> NoDup (Key <$> ds2) ->
  StronglySorted keyLe ds1 -> StronglySorted keyLe ds2 -> ds1 = ds2.
Proof.
  intros Hk Hnd1 Hnd2 Hs1 Hs2.
  assert (Hp : ds1 ≡ₚ ds2).
  { apply NoDup_Permutation.
    - by apply NoDup_fmap_1 in Hnd1.
    - by apply NoDup_fmap_1 in Hnd2.
    - intros d. split; intros Hd.
      + assert (Hd' : d ∈ diffsFor (Key d) ds1) by (by apply elem_of_diffsFor).
        rewrite Hk in Hd'. by apply elem_of_diffsFor in Hd' as [_ ?].
      + assert (Hd' : d ∈ diffsFor (Key d) ds2) by (by apply elem_of_diffsFor).
        rewrite <- Hk in Hd'. by apply elem_of_diffsFor in Hd' as [_ ?]. }
  apply (StronglySorted_unique_strong keyLe); [|done..].
  intros x1 x2 Hx1 Hx2 H12 H21. apply (key_inj ds1); [done|done| |].
  - by rewrite Hp.
  - by apply keyLe_antisym.
Qed.

(** Claim C3: the identity key joins with "_" exactly the non-empty components
    among namespace and subsystem, then the name (always, even when empty), in
    that order; it depends only on the (namespace, subsystem, name) triple, so
    two evaluations on the same triple agree, and the older [MetricKey.String]
    computes the same key. *)
Theorem metricKey_components :
  (forall m : Metric,
      metricKey m =
      match Namespace m, Subsystem m with
      | EmptyString, EmptyString => Name m
      | EmptyString, ss => (ss ++ "_" ++ Name m)%string
      | ns, EmptyString => (ns ++ "_" ++ Name m)%string
      | ns, ss => (ns ++ "_" ++ ss ++ "_" ++ Name m)%string
      end) /\
  (forall m1 m2 : Metric,
      Namespace m1 = Namespace m2 -> Subsystem m1 = Subsystem m2 ->
      Name m1 = Name m2 -> metricKey m1 = metricKey m2) /\
  (forall m : Metric,
      metricKey m =
      MetricKey_String (mkMetricKey (Namespace m) (Subsystem m) (Name m))).
Proof.
  split; [|split].
  - intros m. unfold metricKey.
    destruct (Namespace m) as [|a ns], (Subsystem m) as [|b ss]; reflexivity.
  - intros m1 m2 H1 H2 H3. unfold metricKey. rewrite H1, H2, H3. reflexivity.
  - intros m. reflexivity.
Qed.

(** Claim C1: for any iteration orders of the two maps, every key of
    [old ∪ new] is classified exactly once: a key only in [new] gives exactly
    one [Added] diff carrying only the new record, a key only in [old] exactly
    one [Removed] diff carrying only the old record, a key in both either
    exactly one [Updated] diff whose non-empty change list is the comparators'
    output or, when the comparators produce no description, no diff at all;
    a key in neither map gives no diff. *)
Theorem compareMetrics_partition (old new : gmap string Metric)
    (newIter oldIter : list (string * Metric))
    (Hn : newIter ≡ₚ map_to_list new) (Ho : oldIter ≡ₚ map_to_list old) (k : string) :
  let ds := compareMetricsIn newIter oldIter old new in
  (forall n, new !! k = Some n -> old !! k = None ->
     diffsFor k ds = [mkMetricDiff k Added None (Some n) []]) /\
  (forall o, old !! k = Some o -> new !! k = None ->
     diffsFor k ds = [mkMetricDiff k Removed (Some o) None []]) /\
  (forall o n, old !! k = Some o -> new !! k = Some n ->
     (metricChanges o n <> [] /\
      diffsFor k ds = [mkMetricDiff k Updated (Some o) (Some n) (metricChanges o n)]) \/
     (metricChanges o n = [] /\ diffsFor k ds = [])) /\
  (old !! k = None -> new !! k = None -> diffsFor k ds = []).
Proof.
  intros ds. subst ds. rewrite (diffsFor_compareMetricsIn old new newIter oldIter k Hn Ho).
  unfold expectedDiffs. split; [|split; [|split]].
  - intros n -> ->. done.
  - intros o -> ->. done.
  - intros o n -> ->. destruct (metricChanges o n) as [|c cs] eqn:Hc.
    + right. done.
    + left. split; [done|]. reflexivity.
  - intros -> ->. done.
Qed.

Lemma compareMetrics_partition_witness :
  map_to_list newSnap ≡ₚ map_to_list newSnap /\
  map_to_list oldSnap ≡ₚ map_to_list oldSnap /\
  diffsFor "foo" (compareMetrics oldSnap newSnap) =
    [mkMetricDiff "foo" Updated (Some fooOld) (Some fooNew)
       ["Type changed from `counter` to `gauge`."%string]] /\
  diffsFor "bar" (compareMetrics oldSnap newSnap) =
    [mkMetricDiff "bar" Added None (Some barMetric) []].
Proof.
  split; [reflexivity|]. split; [reflexivity|].
  destruct (compareMetrics_partition oldSnap newSnap (map_to_list newSnap)
              (map_to_list oldSnap) ltac:(reflexivity) ltac:(reflexivity) "foo")
    as (_ & _ & Hboth & _).
  destruct (compareMetrics_partition oldSnap newSnap (map_to_list newSnap)
              (map_to_list oldSnap) ltac:(reflexivity) ltac:(reflexivity) "bar")
    as (Hadd & _ & _ & _).
  unfold compareMetrics. split.
  - destruct (Hboth fooOld fooNew ltac:(vm_compute; reflexivity) ltac:(vm_compute; reflexivity))
      as [[_ ->] | [Hc _]].
    + vm_compute. reflexivity.
    + vm_compute in Hc. discriminate Hc.
  - apply (Hadd barMetric); vm_compute; reflexivity.
Defined.

Lemma compareMetricsIn_sorted old new newIter oldIter :
  StronglySorted keyLe (compareMetricsIn newIter oldIter old new).
Proof. unfold compareMetricsIn, sortDiffs. apply (StronglySorted_merge_sort keyLe). Qed.

Lemma compareMetricsIn_nodup old new newIter oldIter :
  newIter ≡ₚ map_to_list new -> oldIter ≡ₚ map_to_list old ->
  NoDup (Key <$> compareMetricsIn newIter oldIter old new).
Proof.
  intros Hn Ho. apply nodup_keys_of_diffsFor. intros k.
  rewrite (diffsFor_compareMetricsIn old new newIter oldIter k Hn Ho).
  apply expectedDiffs_length.
Qed.

(** Claim C5: for any iteration orders of the two maps, the output of
    [compareMetrics] is strictly increasing in its keys under Go's string
    order (so no two entries share a key), it is the same list whatever the
    iteration orders, and every other key-ordered permutation of it (what any
    implementation of [sort.Slice] may return) is the same list. *)
Theorem compareMetrics_sorted_deterministic (old new : gmap string Metric)
    (newIter oldIter : list (string * Metric))
    (Hn : newIter ≡ₚ map_to_list new) (Ho : oldIter ≡ₚ map_to_list old) :
  let ds := compareMetricsIn newIter oldIter old new in
  StronglySorted (fun d1 d2 => strLt (Key d1) (Key d2)) ds /\
  NoDup (Key <$> ds) /\
  ds = compareMetrics old new /\
  (forall ds', ds' ≡ₚ ds -> Sorted keyLe ds' -> ds' = ds).
Proof.
  intros ds. subst ds.
  pose proof (compareMetricsIn_nodup old new newIter oldIter Hn Ho) as Hnd.
  pose proof (compareMetricsIn_sorted old new newIter oldIter) as Hs.
  split; [by apply strongly_sorted_strict|]. split; [done|]. split.
  - unfold compareMetrics. apply sorted_unique_by_key; try done.
    + intros k. rewrite !diffsFor_compareMetricsIn by done. done.
    + by apply compareMetricsIn_nodup.
    + apply compareMetricsIn_sorted.
  - intros ds' Hp Hs'. apply (Sorted_unique_strong keyLe); [|done| |done].
    + intros x1 x2 Hx1 Hx2 H12 H21. rewrite Hp in Hx1.
      apply (key_inj _ x1 x2 Hnd Hx1 Hx2). by apply keyLe_antisym.
    + by apply StronglySorted_Sorted.
Qed.

Lemma compareMetrics_sorted_deterministic_witness :
  reverse (map_to_list newSnap) ≡ₚ map_to_list newSnap /\
  map_to_list oldSnap ≡ₚ map_to_list oldSnap /\
  compareMetricsIn (reverse (map_to_list newSnap)) (map_to_list oldSnap) oldSnap newSnap
  = compareMetrics oldSnap newSnap /\
  (Key <$> compareMetrics oldSnap newSnap) = ["bar"; "foo"]%string.
Proof.
  split; [apply reverse_Permutation|]. split; [reflexivity|].
  destruct (compareMetrics_sorted_deterministic oldSnap newSnap
              (reverse (map_to_list newSnap)) (map_to_list oldSnap)
              (reverse_Permutation _) ltac:(reflexivity)) as (_ & _ & Heq & _).
  split; [exact Heq|]. vm_compute. reflexivity.
Defined.

Lemma elem_of_kindKeys (P : MetricDiff -> bool) (ds : list MetricDiff) k :
  k ∈ (list_to_set (Key <$> filter (fun d => P d = true) ds) : gset string) <->
  exists d, d ∈ diffsFor k ds /\ P d = true.
Proof.
  rewrite elem_of_list_to_set, list_elem_of_fmap. split.
  - intros (d & -> & Hd). apply list_elem_of_filter in Hd as [HP Hd].
    exists d. split; [by apply elem_of_diffsFor|done].
  - intros (d & Hd & HP). apply elem_of_diffsFor in Hd as [<- Hd].
    exists d. split; [done|]. by apply list_elem_of_filter.
Qed.

Lemma elem_of_addedKeys old new newIter oldIter k :
  newIter ≡ₚ map_to_list new -> oldIter ≡ₚ map_to_list old ->
  k ∈ addedKeys (compareMetricsIn newIter oldIter old new) <->
  is_Some (new !! k) /\ old !! k = None.
Proof.
  intros Hn Ho. unfold addedKeys. rewrite elem_of_kindKeys.
  rewrite (diffsFor_compareMetricsIn old new newIter oldIter k Hn Ho).
  unfold expectedDiffs.
  destruct (new !! k) as [n|], (old !! k) as [o|];
    try destruct (Nat.ltb _ _); split;
    first [ intros (d & Hd & HP); apply list_elem_of_singleton in Hd as ->; done
          | intros (d & Hd & HP); by apply elem_of_nil in Hd
          | intros [[? ?] ?]; done
          | intros [? ?]; by apply is_Some_None in H
          | intros _; eexists; split; [by apply list_elem_of_singleton|done] ].
Qed.

Lemma elem_of_removedKeys old new newIter oldIter k :
  newIter ≡ₚ map_to_list new -> oldIter ≡ₚ map_to_list old ->
  k ∈ removedKeys (compareMetricsIn newIter oldIter old new) <->
  is_Some (old !! k) /\ new !! k = None.
Proof.
  intros Hn Ho. unfold removedKeys. rewrite elem_of_kindKeys.
  rewrite (diffsFor_compareMetricsIn old new newIter oldIter k Hn Ho).
  unfold expectedDiffs.
  destruct (new !! k) as [n|], (old !! k) as [o|];
    try destruct (Nat.ltb _ _); split;
    first [ intros (d & Hd & HP); apply list_elem_of_singleton in Hd as ->; done
          | intros (d & Hd & HP); by apply elem_of_nil in Hd
          | intros [[? ?] ?]; done
          | intros [? ?]; by apply is_Some_None in H
          | intros _; eexists; split; [by apply list_elem_of_singleton|done] ].
Qed.

(** Claim C9: for snapshots [a] and [b] and any iteration orders, the keys
    classified [Added] by [compareMetrics a b] are the keys classified
    [Removed] by [compareMetrics b a], and the keys classified [Removed] by
    [compareMetrics a b] are the keys classified [Added] by
    [compareMetrics b a]. *)
Theorem compareMetrics_add_remove_symmetry (a b : gmap string Metric)
    (iterA1 iterB1 iterA2 iterB2 : list (string * Metric))
    (HA1 : iterA1 ≡ₚ map_to_list a) (HB1 : iterB1 ≡ₚ map_to_list b)
    (HA2 : iterA2 ≡ₚ map_to_list a) (HB2 : iterB2 ≡ₚ map_to_list b) :
  addedKeys (compareMetricsIn iterB1 iterA1 a b) =
    removedKeys (compareMetricsIn iterA2 iterB2 b a) /\
  removedKeys (compareMetricsIn iterB1 iterA1 a b) =
    addedKeys (compareMetricsIn iterA2 iterB2 b a).
Proof.
  split; apply set_eq; intros k.
  - rewrite elem_of_addedKeys, elem_of_removedKeys by done. done.
  - rewrite elem_of_addedKeys, elem_of_removedKeys by done. done.
Qed.

Lemma compareMetrics_add_remove_symmetry_witness :
  map_to_list oldSnap ≡ₚ map_to_list oldSnap /\
  map_to_list newSnap ≡ₚ map_to_list newSnap /\
  addedKeys (compareMetrics oldSnap newSnap) = {["bar"%string]} /\
  removedKeys (compareMetrics newSnap oldSnap) = {["bar"%string]}.
Proof.
  split; [reflexivity|]. split; [reflexivity|].
  destruct (compareMetrics_add_remove_symmetry oldSnap newSnap
              (map_to_list oldSnap) (map_to_list newSnap)
              (map_to_list oldSnap) (map_to_list newSnap)
              ltac:(reflexivity) ltac:(reflexivity) ltac:(reflexivity) ltac:(reflexivity))
    as [Hsym _].
  unfold compareMetrics. rewrite <- Hsym.
  assert (Hadd : addedKeys (compareMetricsIn (map_to_list newSnap) (map_to_list oldSnap)
                              oldSnap newSnap) = {["bar"%string]})
    by (vm_compute; reflexivity).
  split; exact Hadd.
Defined.

Lemma indexMetrics_snoc (metrics : list Metric) (m : Metric) :
  indexMetrics (metrics ++ [m]) = <[metricKey m := m]> (indexMetrics metrics).
Proof. unfold indexMetrics. by rewrite fold_left_app. Qed.

(** Claim C8: indexing processes the decoded records in order, inserting each
    under its key and replacing silently an earlier record with the same key;
    the map has one entry for each distinct key of the records, and the entry
    of a key is the last record, in decode order, with that key. *)
Theorem indexMetrics_last_write_wins :
  (forall (metrics : list Metric) (m : Metric),
     indexMetrics (metrics ++ [m]) = <[metricKey m := m]> (indexMetrics metrics)) /\
  (forall (metrics : list Metric),
     dom (indexMetrics metrics) = list_to_set (metricKey <$> metrics)) /\
  (forall (metrics : list Metric) (k : string),
     indexMetrics metrics !! k = last (filter (fun m => metricKey m = k) metrics)).
Proof.
  split; [|split].
  - apply indexMetrics_snoc.
  - intros metrics. induction metrics as [|m metrics IH] using rev_ind.
    + unfold indexMetrics. simpl. apply dom_empty_L.
    + rewrite indexMetrics_snoc, dom_insert_L, IH, fmap_app, list_to_set_app_L.
      simpl. set_solver.
  - intros metrics k. induction metrics as [|m metrics IH] using rev_ind; [done|].
    rewrite indexMetrics_snoc, filter_app, last_app, filter_cons, filter_nil.
    case_decide as Hk.
    + simpl. rewrite Hk. apply lookup_insert_eq.
    + simpl. rewrite lookup_insert_ne by done. exact IH.
Qed.

(** Claim C6: the deprecation comparator is three-way: from empty to
    non-empty it reports the new version as deprecation, from non-empty to
    empty it reports the end of the deprecation, between two different
    non-empty versions it reports both, and on equal values it reports
    nothing; with the versions 1.30 and 1.31 of the scenarios. *)
Theorem deprecatedVersionChange_three_way :
  (forall o n : Metric,
     DeprecatedVersion o = ""%string -> DeprecatedVersion n <> ""%string ->
     deprecatedVersionChange o n =
       [("Marked as deprecated in version `" ++ DeprecatedVersion n ++ "`.")%string]) /\
  (forall o n : Metric,
     DeprecatedVersion o <> ""%string -> DeprecatedVersion n = ""%string ->
     deprecatedVersionChange o n = ["No longer marked as deprecated."%string]) /\
  (forall o n : Metric,
     DeprecatedVersion o <> ""%string -> DeprecatedVersion n <> ""%string ->
     DeprecatedVersion o <> DeprecatedVersion n ->
     deprecatedVersionChange o n =
       [("Deprecated version changed from `" ++ DeprecatedVersion o ++ "` to `"
           ++ DeprecatedVersion n ++ "`.")%string]) /\
  (forall o n : Metric,
     DeprecatedVersion o = DeprecatedVersion n -> deprecatedVersionChange o n = []) /\
  deprecatedVersionChange (deprecatedMetric "") (deprecatedMetric "1.30")
    = ["Marked as deprecated in version `1.30`."%string] /\
  deprecatedVersionChange (deprecatedMetric "1.30") (deprecatedMetric "")
    = ["No longer marked as deprecated."%string] /\
  deprecatedVersionChange (deprecatedMetric "1.30") (deprecatedMetric "1.31")
    = ["Deprecated version changed from `1.30` to `1.31`."%string].
Proof.
  split; [|split; [|split; [|split]]].
  - intros o n Ho Hn. unfold deprecatedVersionChange. rewrite Ho.
    destruct (String.eqb_spec "" (DeprecatedVersion n)) as [E|_]; [by rewrite <- E in Hn|].
    reflexivity.
  - intros o n Ho Hn. unfold deprecatedVersionChange. rewrite Hn.
    destruct (String.eqb_spec (DeprecatedVersion o) "") as [E|_]; [done|].
    reflexivity.
  - intros o n Ho Hn Hne. unfold deprecatedVersionChange.
    destruct (String.eqb_spec (DeprecatedVersion o) (DeprecatedVersion n)); [done|].
    destruct (String.eqb_spec (DeprecatedVersion o) ""); [done|].
    destruct (String.eqb_spec (DeprecatedVersion n) ""); [done|].
    reflexivity.
  - intros o n E. unfold deprecatedVersionChange. rewrite E, String.eqb_refl. reflexivity.
  - split; [|split]; vm_compute; reflexivity.
Qed.

Lemma equalFloat64Slices_spec (a b : list float) :
  equalFloat64Slices a b = true <->
  length a = length b /\
  (forall i x y, a !! i = Some x -> b !! i = Some y -> PrimFloat.eqb x y = true).
Proof.
  unfold equalFloat64Slices.
  destruct (Nat.eqb_spec (length a) (length b)) as [Hl|Hl]; simpl.
  - rewrite forallb_forall. split.
    + intros H. split; [done|]. intros i x y Hx Hy.
      pose proof (lookup_lt_Some _ _ _ Hx) as Hi.
      rewrite <- (nth_lookup_Some a i PrimFloat.zero x Hx).
      rewrite <- (nth_lookup_Some b i PrimFloat.zero y Hy).
      apply H. apply in_seq. lia.
    + intros [_ H] i Hi. apply in_seq in Hi.
      destruct (nth_lookup_or_length a i PrimFloat.zero) as [Ha|Ha]; [|lia].
      destruct (nth_lookup_or_length b i PrimFloat.zero) as [Hb|Hb]; [|lia].
      exact (H i _ _ Ha Hb).
  - split; [done|]. intros [? _]. contradiction.
Qed.

(** Claim C7: the bucket comparator reports "Buckets changed." exactly when
    the two bucket lists differ in length or at some position under IEEE
    floating-point equality (order-sensitive, no tolerance); [1, 2, 3]
    against [3, 2, 1] is reported, and so is 1 against the next float. *)
Theorem bucketsChange_exact :
  (forall o n : Metric,
     bucketsChange o n = ["Buckets changed."%string] <->
     ~ (length (Buckets o) = length (Buckets n) /\
        forall i x y, Buckets o !! i = Some x -> Buckets n !! i = Some y ->
                      PrimFloat.eqb x y = true)) /\
  (forall o n : Metric,
     bucketsChange o n = [] <->
     (length (Buckets o) = length (Buckets n) /\
      forall i x y, Buckets o !! i = Some x -> Buckets n !! i = Some y ->
                    PrimFloat.eqb x y = true)) /\
  bucketsChange (sampleMetric "m" [1%float; 2%float; 3%float])
                (sampleMetric "m" [3%float; 2%float; 1%float])
    = ["Buckets changed."%string] /\
  bucketsChange (sampleMetric "m" [1%float])
                (sampleMetric "m" [PrimFloat.next_up 1%float])
    = ["Buckets changed."%string].
Proof.
  split; [|split; [|split]].
  - intros o n. rewrite <- equalFloat64Slices_spec. unfold bucketsChange.
    destruct (equalFloat64Slices _ _); simpl; split; congruence.
  - intros o n. rewrite <- equalFloat64Slices_spec. unfold bucketsChange.
    destruct (equalFloat64Slices _ _); simpl; split; congruence.
  - vm_compute. reflexivity.
  - vm_compute. reflexivity.
Qed.

Lemma equalStringSlices_refl (a : list string) : equalStringSlices a a = true.
Proof.
  unfold equalStringSlices. rewrite Nat.eqb_refl. simpl.
  apply forallb_forall. intros i _. apply String.eqb_refl.
Qed.

Lemma equalFloat64Slices_refl (a : list float) :
  Forall (fun b => PrimFloat.is_nan b = false) a -> equalFloat64Slices a a = true.
Proof.
  intros Hnan. apply equalFloat64Slices_spec. split; [done|].
  intros i x y Hx Hy. rewrite Hx in Hy. injection Hy as <-.
  rewrite Forall_forall in Hnan.
  specialize (Hnan x ltac:(by eapply list_elem_of_lookup_2)).
  unfold PrimFloat.is_nan in Hnan. by destruct (PrimFloat.eqb x x).
Qed.

Lemma deepEqualStringMap_refl (a : option (gmap string string)) :
  deepEqualStringMap a a = true.
Proof. destruct a; simpl; [by apply bool_decide_eq_true_2|done]. Qed.

(** The comparators find nothing between a record and itself when its
    buckets hold no NaN. *)
Lemma metricChanges_refl (m : Metric) :
  Forall (fun b => PrimFloat.is_nan b = false) (Buckets m) -> metricChanges m m = [].
Proof.
  intros Hnan.
  unfold metricChanges, helpChange, typeChange, stabilityLevelChange,
    deprecatedVersionChange, ageBucketsChange, bufCapChange, maxAgeChange,
    constLabelsChange, labelsChange, bucketsChange.
  rewrite !String.eqb_refl, !N.eqb_refl, Z.eqb_refl, deepEqualStringMap_refl,
    equalStringSlices_refl, equalFloat64Slices_refl by done.
  reflexivity.
Qed.

Lemma diffs_nil_of_diffsFor (ds : list MetricDiff) :
  (forall k, diffsFor k ds = []) -> ds = [].
Proof.
  destruct ds as [|d ds]; [done|]. intros H. specialize (H (Key d)).
  rewrite diffsFor_cons_self in H. discriminate H.
Qed.

(** Claim C4 fails: a snapshot whose only record has a NaN bucket compared
    with itself yields an [Updated] diff, since NaN != NaN in Go. *)
Lemma compareMetrics_self_nan :
  compareMetrics nanSnap nanSnap =
    [mkMetricDiff "m" Updated (Some nanMetric) (Some nanMetric) ["Buckets changed."%string]] /\
  compareMetrics nanSnap nanSnap <> [].
Proof. split; vm_compute; [reflexivity|discriminate]. Qed.

(** Claim C4, amended: for any snapshot whose bucket boundaries hold no NaN,
    and any iteration orders, comparing the snapshot with itself yields no
    diff. *)
Theorem compareMetrics_self_empty (S : gmap string Metric)
    (newIter oldIter : list (string * Metric))
    (Hn : newIter ≡ₚ map_to_list S) (Ho : oldIter ≡ₚ map_to_list S)
    (Hnan : map_Forall (fun _ m => Forall (fun b => PrimFloat.is_nan b = false) (Buckets m)) S) :
  compareMetricsIn newIter oldIter S S = [].
Proof.
  apply diffs_nil_of_diffsFor. intros k.
  rewrite (diffsFor_compareMetricsIn S S newIter oldIter k Hn Ho).
  unfold expectedDiffs. destruct (S !! k) as [m|] eqn:Hk; [|done].
  rewrite metricChanges_refl by (by apply (Hnan k)). reflexivity.
Qed.

Lemma compareMetrics_self_empty_witness :
  map_to_list newSnap ≡ₚ map_to_list newSnap /\
  map_Forall (fun _ m => Forall (fun b => PrimFloat.is_nan b = false) (Buckets m)) newSnap /\
  compareMetrics newSnap newSnap = [].
Proof.
  assert (Hnan : map_Forall (fun _ m => Forall (fun b => PrimFloat.is_nan b = false) (Buckets m))
                   newSnap) by (apply (bool_decide_unpack _); vm_compute; exact I).
  split; [reflexivity|]. split; [exact Hnan|].
  exact (compareMetrics_self_empty newSnap (map_to_list newSnap) (map_to_list newSnap)
           ltac:(reflexivity) ltac:(reflexivity) Hnan).
Defined.

(** No comparator reads [Objectives]. *)
Lemma metricChanges_objectives (o n : Metric) (obj : list (float * float)) :
  metricChanges o (setObjectives n obj) = metricChanges o n /\
  metricChanges (setObjectives o obj) n = metricChanges o n.
Proof. destruct o, n. split; reflexivity. Qed.

(** Claim C10: [Objectives] is read by no comparator, so replacing it in
    either record leaves the change list unchanged; and a key present in both
    snapshots whose records agree on every compared field (help, type,
    stability level, deprecation version, age buckets, buffer capacity,
    max age, constant labels, labels, and buckets under the IEEE equality the
    code uses), whatever their objectives, gets no diff. *)
Theorem objectives_change_invisible (old new : gmap string Metric)
    (newIter oldIter : list (string * Metric))
    (Hn : newIter ≡ₚ map_to_list new) (Ho : oldIter ≡ₚ map_to_list old)
    (k : string) (o n : Metric)
    (Hold : old !! k = Some o) (Hnew : new !! k = Some n)
    (Hhelp : Help o = Help n) (Htype : Type_ o = Type_ n)
    (Hstab : StabilityLevel o = StabilityLevel n)
    (Hdep : DeprecatedVersion o = DeprecatedVersion n)
    (Hage : AgeBuckets o = AgeBuckets n) (Hbuf : BufCap o = BufCap n)
    (Hmax : MaxAge o = MaxAge n) (Hconst : ConstLabels o = ConstLabels n)
    (Hlabels : Labels o = Labels n)
    (Hblen : length (Buckets o) = length (Buckets n))
    (Hbuckets : forall i x y, Buckets o !! i = Some x -> Buckets n !! i = Some y ->
                  PrimFloat.eqb x y = true) :
  (forall obj, metricChanges o (setObjectives n obj) = metricChanges o n) /\
  (forall obj, metricChanges (setObjectives o obj) n = metricChanges o n) /\
  metricChanges o n = [] /\
  diffsFor k (compareMetricsIn newIter oldIter old new) = [].
Proof.
  assert (Hch : metricChanges o n = []).
  { unfold metricChanges, helpChange, typeChange, stabilityLevelChange,
      deprecatedVersionChange, ageBucketsChange, bufCapChange, maxAgeChange,
      constLabelsChange, labelsChange, bucketsChange.
    rewrite Hhelp, Htype, Hstab, Hdep, Hage, Hbuf, Hmax, Hconst, Hlabels.
    rewrite !String.eqb_refl, !N.eqb_refl, Z.eqb_refl, deepEqualStringMap_refl,
      equalStringSlices_refl.
    assert (Hb : equalFloat64Slices (Buckets o) (Buckets n) = true)
      by (apply equalFloat64Slices_spec; by split).
    rewrite Hb. reflexivity. }
  split; [intros obj; apply metricChanges_objectives|].
  split; [intros obj; apply metricChanges_objectives|].
  split; [done|].
  rewrite (diffsFor_compareMetricsIn old new newIter oldIter k Hn Ho).
  unfold expectedDiffs. rewrite Hnew, Hold, Hch. reflexivity.
Qed.

Lemma objectives_change_invisible_witness :
  Objectives summaryOld <> Objectives summaryNew /\
  metricChanges summaryOld summaryNew = [] /\
  diffsFor "latency"
    (compareMetrics {["latency"%string := summaryOld]} {["latency"%string := summaryNew]}) = [].
Proof.
  destruct (objectives_change_invisible
    {["latency"%string := summaryOld]} {["latency"%string := summaryNew]}
    (map_to_list {["latency"%string := summaryNew]})
    (map_to_list {["latency"%string := summaryOld]})
    ltac:(reflexivity) ltac:(reflexivity) "latency" summaryOld summaryNew
    ltac:(vm_compute; reflexivity) ltac:(vm_compute; reflexivity)
    ltac:(reflexivity) ltac:(reflexivity) ltac:(reflexivity) ltac:(reflexivity)
    ltac:(reflexivity) ltac:(reflexivity) ltac:(reflexivity) ltac:(reflexivity)
    ltac:(reflexivity) ltac:(reflexivity)
    ltac:(intros i x y Hx Hy; vm_compute in Hx; discriminate Hx)) as (_ & _ & Hch & Hk).
  split; [vm_compute; discriminate|]. split; [exact Hch|]. exact Hk.
Defined.

Lemma string_length_append (a b : string) :
  String.length (a ++ b)%string = String.length a + String.length b.
Proof. induction a as [|c a IH]; simpl; [done|]. by rewrite IH. Qed.

Lemma string_append_suffix_inj (l1 l2 s : string) :
  (l1 ++ s)%string = (l2 ++ s)%string -> l1 = l2.
Proof.
  revert l2. induction l1 as [|c1 l1 IH]; intros [|c2 l2] H; try done.
  - apply (f_equal String.length) in H.
    rewrite !string_length_append in H. simpl in H. lia.
  - apply (f_equal String.length) in H.
    rewrite !string_length_append in H. simpl in H. lia.
  - injection H as -> H. f_equal. by apply IH.
Qed.

#[global] Instance quote_inj : Inj (=) (=) quote.
Proof.
  intros l1 l2 H. unfold quote in H.
  apply (inj (String.append "`")) in H. by apply string_append_suffix_inj in H.
Qed.

(** One side of the label set difference: the quoted labels of [ls] that are
    not in [others], sorted; it has the expected members, no duplicate, and
    is ordered. *)
Lemma label_side_spec (others ls : list string) :
  let side := sortStrings (quote <$> filter (fun label => label ∉ (list_to_set others : gset string))
                                      (elements (list_to_set ls : gset string))) in
  (forall x, x ∈ side <-> exists l, x = quote l /\ l ∈ ls /\ l ∉ others) /\
  NoDup side /\ Sorted String.le side.
Proof.
  intros side. unfold side, sortStrings. split; [|split].
  - intros x. rewrite (merge_sort_Permutation String.le), list_elem_of_fmap.
    split.
    + intros (l & -> & Hl). apply list_elem_of_filter in Hl as [Hno Hl].
      rewrite elem_of_elements, elem_of_list_to_set in Hl.
      rewrite elem_of_list_to_set in Hno. eauto.
    + intros (l & -> & Hl & Hno). exists l. split; [done|].
      apply list_elem_of_filter. rewrite elem_of_elements, !elem_of_list_to_set. done.
  - rewrite (merge_sort_Permutation String.le). apply NoDup_fmap_2; [apply _|].
    apply NoDup_filter, NoDup_elements.
  - apply Sorted_merge_sort. apply _.
Qed.

(** Claim C2: the label comparator computes, for each side, the quoted labels
    present on that side only, without duplicates and sorted; it reports
    "Added labels: [...]." and/or "Removed labels: [...]." joined by
    " <br> " when one of them is non-empty, and otherwise, which happens
    exactly when both lists hold the same set of labels, a reordering message
    naming the old and the new list; with the two examples of the spec. *)
Theorem compareLabelSlices_set_diff :
  (forall oldLabels newLabels : list string,
   exists added removed : list string,
     (forall x, x ∈ added <-> exists l, x = quote l /\ l ∈ newLabels /\ l ∉ oldLabels) /\
     NoDup added /\ Sorted String.le added /\
     (forall x, x ∈ removed <-> exists l, x = quote l /\ l ∈ oldLabels /\ l ∉ newLabels) /\
     NoDup removed /\ Sorted String.le removed /\
     (added = [] /\ removed = [] <-> forall l, l ∈ oldLabels <-> l ∈ newLabels) /\
     compareLabelSlices oldLabels newLabels =
       match added, removed with
       | [], [] =>
           ("Labels reordered: [" ++ join oldLabels ", " ++ "] → ["
              ++ join newLabels ", " ++ "]")%string
       | _, [] => ("Added labels: [" ++ join added ", " ++ "].")%string
       | [], _ => ("Removed labels: [" ++ join removed ", " ++ "].")%string
       | _, _ =>
           join [("Added labels: [" ++ join added ", " ++ "].")%string;
                 ("Removed labels: [" ++ join removed ", " ++ "].")%string] " <br> "
       end) /\
  compareLabelSlices ["a"; "b"]%string ["b"; "a"]%string
    = "Labels reordered: [a, b] → [b, a]"%string /\
  compareLabelSlices ["a"; "b"]%string ["a"; "c"]%string
    = "Added labels: [`c`]. <br> Removed labels: [`b`]."%string.
Proof.
  split; [|split; vm_compute; reflexivity].
  intros oldLabels newLabels.
  destruct (label_side_spec oldLabels newLabels) as (HA & HAnd & HAs).
  destruct (label_side_spec newLabels oldLabels) as (HR & HRnd & HRs).
  unfold compareLabelSlices. cbv zeta.
  remember (sortStrings (quote <$> filter (fun label => label ∉ (list_to_set oldLabels : gset string))
              (elements (list_to_set newLabels : gset string)))) as added eqn:Hadded.
  remember (sortStrings (quote <$> filter (fun label => label ∉ (list_to_set newLabels : gset string))
              (elements (list_to_set oldLabels : gset string)))) as removed eqn:Hremoved.
  exists added, removed.
  split; [done|]. split; [done|]. split; [done|].
  split; [done|]. split; [done|]. split; [done|].
  split.
  - split.
    + intros [-> ->] l. split; intros Hl.
      * destruct (decide (l ∈ newLabels)) as [|Hno]; [done|].
        exfalso. assert (Hq : quote l ∈ ([] : list string)) by (apply HR; eauto).
        by apply elem_of_nil in Hq.
      * destruct (decide (l ∈ oldLabels)) as [|Hno]; [done|].
        exfalso. assert (Hq : quote l ∈ ([] : list string)) by (apply HA; eauto).
        by apply elem_of_nil in Hq.
    + intros Hsame. split.
      * destruct added as [|x added]; [done|]. exfalso.
        assert (Hx : x ∈ x :: added) by apply list_elem_of_here.
        apply HA in Hx as (l & _ & Hl & Hno). by apply Hno, Hsame.
      * destruct removed as [|x removed]; [done|]. exfalso.
        assert (Hx : x ∈ x :: removed) by apply list_elem_of_here.
        apply HR in Hx as (l & _ & Hl & Hno). by apply Hno, Hsame.
  - destruct added as [|a added], removed as [|r removed]; reflexivity.
Qed.

(** ** Further properties of the code *)

Lemma equalStringSlices_true (a b : list string) :
  equalStringSlices a b = true <-> a = b.
Proof.
  split; [|intros ->; apply equalStringSlices_refl].
  unfold equalStringSlices.
  destruct (Nat.eqb_spec (length a) (length b)) as [Hl|Hl]; simpl; [|done].
  rewrite forallb_forall. intros H.
  apply (nth_ext a b "" ""); [done|]. intros i Hi.
  apply String.eqb_eq, H, in_seq. lia.
Qed.

(** [equalStringSlices] is list equality. *)
Theorem equalStringSlices_iff (a b : list string) :
  equalStringSlices a b = true <-> a = b.
Proof. apply equalStringSlices_true. Qed.

(** A float slice equals itself under [equalFloat64Slices] exactly when it
    holds no NaN. *)
Theorem equalFloat64Slices_self_iff (a : list float) :
  equalFloat64Slices a a = true <-> Forall (fun b => PrimFloat.is_nan b = false) a.
Proof.
  split; [|apply equalFloat64Slices_refl].
  intros H. apply equalFloat64Slices_spec in H as [_ H].
  apply Forall_forall. intros x Hx.
  apply list_elem_of_lookup_1 in Hx as [i Hi].
  unfold PrimFloat.is_nan. by rewrite (H i x x Hi Hi).
Qed.

Lemma constLabelsChange_nil (o n : Metric) :
  constLabelsChange o n = [] <-> ConstLabels o = ConstLabels n.
Proof.
  unfold constLabelsChange.
  destruct (ConstLabels o) as [a|], (ConstLabels n) as [b|]; simpl;
    try (split; congruence).
  destruct (bool_decide_reflect (a = b)) as [->|Hne]; simpl; split; congruence.
Qed.

(** [reflect.DeepEqual] on the constant labels is equality of the optional
    maps: a [nil] map and an empty map are reported as a change. *)
Theorem constLabelsChange_iff :
  (forall o n : Metric,
     constLabelsChange o n = [] <-> ConstLabels o = ConstLabels n) /\
  (forall o n : Metric,
     ConstLabels o = None -> ConstLabels n = Some ∅ ->
     constLabelsChange o n = ["ConstLabels changed."%string]).
Proof.
  split; [apply constLabelsChange_nil|].
  intros o n Ho Hn. unfold constLabelsChange. rewrite Ho, Hn. reflexivity.
Qed.

Lemma comparator_blocks_nil (o n : Metric) :
  (helpChange o n = [] <-> Help o = Help n) /\
  (typeChange o n = [] <-> Type_ o = Type_ n) /\
  (stabilityLevelChange o n = [] <-> StabilityLevel o = StabilityLevel n) /\
  (deprecatedVersionChange o n = [] <-> DeprecatedVersion o = DeprecatedVersion n) /\
  (ageBucketsChange o n = [] <-> AgeBuckets o = AgeBuckets n) /\
  (bufCapChange o n = [] <-> BufCap o = BufCap n) /\
  (maxAgeChange o n = [] <-> MaxAge o = MaxAge n) /\
  (labelsChange o n = [] <-> Labels o = Labels n) /\
  (bucketsChange o n = [] <-> equalFloat64Slices (Buckets o) (Buckets n) = true).
Proof.
  unfold helpChange, typeChange, stabilityLevelChange, deprecatedVersionChange,
    ageBucketsChange, bufCapChange, maxAgeChange, labelsChange, bucketsChange.
  rewrite <- (equalStringSlices_true (Labels o) (Labels n)).
  repeat split;
    repeat match goal with
    | |- context [String.eqb ?a ?b] => destruct (String.eqb_spec a b)
    | |- context [N.eqb ?a ?b] => destruct (N.eqb_spec a b)
    | |- context [Z.eqb ?a ?b] => destruct (Z.eqb_spec a b)
    | |- context [equalStringSlices ?a ?b] => destruct (equalStringSlices a b)
    | |- context [equalFloat64Slices ?a ?b] => destruct (equalFloat64Slices a b)
    end; simpl; congruence.
Qed.

(** A matched pair gets an empty change list, and so no [Updated] diff,
    exactly when every comparator sees equal values. *)
Theorem metricChanges_nil_iff (o n : Metric) :
  metricChanges o n = [] <->
  Help o = Help n /\ Type_ o = Type_ n /\ StabilityLevel o = StabilityLevel n /\
  DeprecatedVersion o = DeprecatedVersion n /\ AgeBuckets o = AgeBuckets n /\
  BufCap o = BufCap n /\ MaxAge o = MaxAge n /\ ConstLabels o = ConstLabels n /\
  Labels o = Labels n /\ equalFloat64Slices (Buckets o) (Buckets n) = true.
Proof.
  destruct (comparator_blocks_nil o n) as (H1 & H2 & H3 & H4 & H5 & H6 & H7 & H8 & H9).
  unfold metricChanges. rewrite !app_nil.
  rewrite constLabelsChange_nil, H1, H2, H3, H4, H5, H6, H7, H8, H9.
  done.
Qed.

Lemma fold_index_union (l : list Metric) (m : gmap string Metric) :
  fold_left (fun metricMap metric => <[metricKey metric := metric]> metricMap) l m =
  indexMetrics l ∪ m.
Proof.
  unfold indexMetrics. revert m.
  induction l as [|x l IH]; intros m; simpl.
  - by rewrite (left_id_L ∅ (∪)).
  - rewrite IH, (IH (<[metricKey x:=x]> ∅)).
    rewrite !insert_union_singleton_l, (right_id_L ∅ (∪)).
    by rewrite (assoc_L (∪)).
Qed.

(** Indexing the concatenation of two decoded lists is the left-biased union
    of the two indexes, the later list winning. *)
Theorem indexMetrics_app (l1 l2 : list Metric) :
  indexMetrics (l1 ++ l2) = indexMetrics l2 ∪ indexMetrics l1.
Proof.
  unfold indexMetrics at 1. rewrite fold_left_app.
  fold (indexMetrics l1). apply fold_index_union.
Qed.



(** *** Pipe escaping in the report table *)

Lemma escapePipes_head (s : string) :
  String.get 0 (escapePipes s) <> Some "|"%char.
Proof.
  destruct s as [|c s]; simpl; [done|].
  destruct (Ascii.eqb c "|"%char) eqn:E; simpl; [done|].
  intros H. injection H as ->. cbv in E. discriminate.
Qed.

(** Every pipe byte of an escaped description is preceded by a backslash:
    no pipe of the description can end a table cell. *)
Theorem escapePipes_pipes_escaped (s : string) (i : nat) :
  String.get i (escapePipes s) = Some "|"%char ->
  exists j, i = S j /\ String.get j (escapePipes s) = Some "\"%char.
Proof.
  revert i. induction s as [|c s IH]; intros i H; simpl in H; [discriminate|].
  destruct (Ascii.eqb c "|"%char) eqn:E.
  - destruct i as [|[|i]]; simpl in H.
    + discriminate.
    + exists 0. simpl. rewrite E. done.
    + destruct (IH i H) as (j & -> & Hj).
      exists (S (S j)). simpl. rewrite E. done.
  - destruct i as [|i]; simpl in H.
    + injection H as ->. cbv in E. discriminate.
    + destruct (IH i H) as (j & -> & Hj).
      exists (S j). simpl. rewrite E. done.
Qed.

(** The escaping loses nothing: distinct descriptions give distinct cells. *)
Theorem escapePipes_inj (s1 s2 : string) :
  escapePipes s1 = escapePipes s2 -> s1 = s2.
Proof.
  revert s2. induction s1 as [|c1 s1 IH]; intros [|c2 s2] H; simpl in H.
  - done.
  - destruct (Ascii.eqb c2 "|"%char); discriminate.
  - destruct (Ascii.eqb c1 "|"%char); discriminate.
  - destruct (Ascii.eqb c1 "|"%char) eqn:E1, (Ascii.eqb c2 "|"%char) eqn:E2.
    + injection H as H. apply Ascii.eqb_eq in E1, E2. subst. f_equal. by apply IH.
    + injection H as <- H. destruct (escapePipes_head s2). by rewrite <- H.
    + injection H as -> H. destruct (escapePipes_head s1). by rewrite H.
    + injection H as -> H. f_equal. by apply IH.
Qed.

(** *** The report of a comparison *)

Lemma Forall_fold_left {A B} (P : B -> Prop) (step : list B -> A -> list B) (l : list A) acc :
  Forall P acc ->
  (forall acc x, x ∈ l -> Forall P acc -> Forall P (step acc x)) ->
  Forall P (fold_left step l acc).
Proof.
  revert acc. induction l as [|x l IH]; intros acc Hacc Hstep; simpl; [done|].
  apply IH.
  - apply Hstep; [apply list_elem_of_here|done].
  - intros acc' y Hy. apply Hstep. by apply elem_of_cons; right.
Qed.



Lemma countKinds_fold (diffs : list MetricDiff) a r u :
  fold_left countStep diffs (a, r, u) =
  (a + length (filter (fun d => isAdded d = true) diffs),
   r + length (filter (fun d => isRemoved d = true) diffs),
   u + length (filter (fun d => isUpdated d = true) diffs)).
Proof.
  revert a r u. induction diffs as [|d diffs IH]; intros a r u; cbn [fold_left].
  - by rewrite !Nat.add_0_r.
  - rewrite !filter_cons. unfold countStep at 2.
    destruct (Kind d) eqn:Hk; rewrite IH; repeat case_decide;
      unfold isAdded, isRemoved, isUpdated in *; rewrite ?Hk in *; try done;
      cbn [length]; apply (f_equal2 pair); try apply (f_equal2 pair); lia.
Qed.

Lemma length_filter_kinds (diffs : list MetricDiff) :
  length (filter (fun d => isAdded d = true) diffs)
  + length (filter (fun d => isRemoved d = true) diffs)
  + length (filter (fun d => isUpdated d = true) diffs) = length diffs.
Proof.
  induction diffs as [|d diffs IH]; simpl; [done|].
  rewrite !filter_cons.
  destruct (Kind d) eqn:Hk; repeat case_decide;
    unfold isAdded, isRemoved, isUpdated in *; rewrite ?Hk in *; try done;
    cbn [length]; lia.
Qed.

Lemma size_kindKeys (P : MetricDiff -> bool) (ds : list MetricDiff) :
  NoDup (Key <$> ds) ->
  size (list_to_set (Key <$> filter (fun d => P d = true) ds) : gset string)
  = length (filter (fun d => P d = true) ds).
Proof.
  intros Hnd. rewrite size_list_to_set, length_fmap; [done|].
  eapply sublist_NoDup; [exact Hnd|].
  apply fmap_sublist, sublist_filter.
Qed.

(** The summary of the report counts as [Added] exactly the keys of the new
    snapshot missing from the old one, as [Removed] exactly the keys of the
    old snapshot missing from the new one, and its three counts add up to
    the total number of changes it prints. *)
Theorem printMarkdownTable_summary_counts (old new : gmap string Metric) :
  let '(added, removed, updated) := countKinds (compareMetrics old new) in
  added = size (dom new ∖ dom old) /\
  removed = size (dom old ∖ dom new) /\
  added + removed + updated = length (compareMetrics old new).
Proof.
  unfold countKinds. rewrite countKinds_fold. simpl.
  assert (Hnd : NoDup (Key <$> compareMetrics old new)).
  { apply compareMetricsIn_nodup; reflexivity. }
  split; [|split].
  - rewrite <- (size_kindKeys isAdded) by done. f_equal.
    apply set_eq. intros k. fold (addedKeys (compareMetrics old new)). unfold compareMetrics.
    rewrite (elem_of_addedKeys old new (map_to_list new) (map_to_list old)) by reflexivity.
    rewrite elem_of_difference, !elem_of_dom. unfold is_Some.
    split; [intros [? ->]; naive_solver|]. intros [? Ho]. split; [done|].
    by destruct (old !! k); [destruct Ho; eexists|].
  - rewrite <- (size_kindKeys isRemoved) by done. f_equal.
    apply set_eq. intros k. fold (removedKeys (compareMetrics old new)). unfold compareMetrics.
    rewrite (elem_of_removedKeys old new (map_to_list new) (map_to_list old)) by reflexivity.
    rewrite elem_of_difference, !elem_of_dom. unfold is_Some.
    split; [intros [? ->]; naive_solver|]. intros [? Hn]. split; [done|].
    by destruct (new !! k); [destruct Hn; eexists|].
  - apply length_filter_kinds.
Qed.

(** *** Bytes of strings *)

Lemma string_of_list_ascii_app (l1 l2 : list Ascii.ascii) :
  String.string_of_list_ascii (l1 ++ l2)
  = (String.string_of_list_ascii l1 ++ String.string_of_list_ascii l2)%string.
Proof.
  induction l1 as [|c l1 IH]; [done|].
  cbn [String.string_of_list_ascii app]. rewrite IH. reflexivity.
Qed.

Lemma list_ascii_of_string_app (s1 s2 : string) :
  String.list_ascii_of_string (s1 ++ s2)
  = String.list_ascii_of_string s1 ++ String.list_ascii_of_string s2.
Proof.
  induction s1 as [|c s1 IH]; [done|].
  change (String c s1 ++ s2)%string with (String c (s1 ++ s2)).
  cbn [String.list_ascii_of_string app]. by rewrite IH.
Qed.

Lemma hasNo_Forall (c : Ascii.ascii) (s : string) :
  hasNo c s = true ->
  Forall (fun x => Ascii.eqb x c = false) (String.list_ascii_of_string s).
Proof.
  unfold hasNo. induction (String.list_ascii_of_string s) as [|x l IH]; simpl;
    [constructor|].
  intros [Hx Hl]%andb_prop. constructor; [by destruct (Ascii.eqb x c)|by apply IH].
Qed.

(** *** Dropping the header of the diff output *)

Lemma splitLines_no_nl (l : list Ascii.ascii) :
  Forall (fun x => Ascii.eqb x nlChar = false) l -> splitLines l = [l].
Proof.
  induction 1 as [|c l Hc _ IH]; [done|]. simpl. by rewrite Hc, IH.
Qed.

Lemma splitLines_line (l r : list Ascii.ascii) :
  Forall (fun x => Ascii.eqb x nlChar = false) l ->
  splitLines (l ++ nlChar :: r) = l :: splitLines r.
Proof.
  induction 1 as [|c l Hc _ IH]; simpl.
  - by rewrite ?Ascii.eqb_refl.
  - by rewrite Hc, IH.
Qed.


Lemma concat_cons_char (sep x : string) (xs : list string) (c : Ascii.ascii) :
  String.concat sep (String c x :: xs) = String c (String.concat sep (x :: xs)).
Proof. by destruct xs. Qed.

(** [strings.Join(strings.Split(s, "\n"), "\n")] is [s]. *)
Lemma join_split_nl (l : list Ascii.ascii) :
  splitLines l <> [] /\
  join (String.string_of_list_ascii <$> splitLines l) nl = String.string_of_list_ascii l.
Proof.
  unfold join. induction l as [|c l [Hne IH]]; [done|]. simpl.
  destruct (Ascii.eqb c nlChar) eqn:E.
  - apply Ascii.eqb_eq in E as ->. split; [done|].
    destruct (splitLines l) as [|x xs]; [done|]. simpl in *. rewrite <- IH. reflexivity.
  - destruct (splitLines l) as [|x xs]; [done|]. split; [done|].
    cbn [fmap list_fmap String.string_of_list_ascii] in *.
    by rewrite concat_cons_char, IH.
Qed.

(** When the output of [diff] starts with three lines (the [---], [+++] and
    [@@] header of a unified diff), [unifiedDiffWithoutHeader] returns
    exactly the text after them. *)
Theorem dropDiffHeader_drops_three_lines (h1 h2 h3 body : string) :
  hasNo nlChar h1 = true -> hasNo nlChar h2 = true -> hasNo nlChar h3 = true ->
  dropDiffHeader (h1 ++ nl ++ h2 ++ nl ++ h3 ++ nl ++ body)%string = body.
Proof.
  intros H1%hasNo_Forall H2%hasNo_Forall H3%hasNo_Forall.
  unfold dropDiffHeader, split_nl.
  rewrite !list_ascii_of_string_app. cbn [String.list_ascii_of_string nl].
  cbn [app].
  rewrite (splitLines_line _ _ H1), (splitLines_line _ _ H2), (splitLines_line _ _ H3).
  destruct (join_split_nl (String.list_ascii_of_string body)) as [Hne Hj].
  destruct (splitLines (String.list_ascii_of_string body)) as [|x xs] eqn:Hb; [done|].
  cbn [fmap list_fmap length drop Nat.leb] in *.
  rewrite Hj. apply String.string_of_list_ascii_of_string.
Qed.


(** *** File names to versions *)

Lemma dropWhileL_stop (p : Ascii.ascii -> bool) (a r : list Ascii.ascii) (y : Ascii.ascii) :
  Forall (fun x => p x = false) a -> p y = false ->
  dropWhileL p (a ++ y :: r) = a ++ y :: r.
Proof. intros Ha Hy. destruct Ha as [|x a Hx _]; simpl; by rewrite ?Hx, ?Hy. Qed.

Lemma takeWhileL_app (p : Ascii.ascii -> bool) (a r : list Ascii.ascii) :
  Forall (fun x => p x = true) a -> takeWhileL p (a ++ r) = a ++ takeWhileL p r.
Proof. induction 1 as [|x a Hx _ IH]; [done|]. simpl. by rewrite Hx, IH. Qed.

Lemma extScan_dot (a r seen : list Ascii.ascii) :
  Forall (fun x => isPathSeparator x = false /\ Ascii.eqb x "."%char = false) a ->
  extScan (a ++ "."%char :: r) seen = "."%char :: rev a ++ seen.
Proof.
  intros Ha. revert seen. induction Ha as [|x a [Hs Hd] _ IH]; intros seen; [done|].
  simpl. rewrite Hs, Hd, IH. by rewrite <- app_assoc.
Qed.

Lemma substring_all (s : string) : String.substring 0 (String.length s) s = s.
Proof. induction s as [|c s IH]; [done|]. simpl. by rewrite IH. Qed.

Lemma substring_app_r (a b : string) :
  String.substring (String.length a) (String.length b) (a ++ b) = b.
Proof. induction a as [|c a IH]; [apply substring_all|]. exact IH. Qed.

Lemma substring_app_l (a b : string) :
  String.substring 0 (String.length a) (a ++ b) = a.
Proof.
  induction a as [|c a IH]; [by destruct b|].
  change (String c a ++ b)%string with (String c (a ++ b)). simpl. by rewrite IH.
Qed.

Lemma trimSuffix_app (a b : string) : trimSuffix (a ++ b) b = a.
Proof.
  unfold trimSuffix, hasSuffix. rewrite string_length_append.
  replace (String.length a + String.length b - String.length b) with (String.length a) by lia.
  rewrite substring_app_r, String.eqb_refl, substring_app_l.
  destruct (Nat.leb_spec (String.length b) (String.length a + String.length b)); [done|lia].
Qed.

Lemma Forall_noSep (s : string) :
  hasNo "/"%char s = true ->
  Forall (fun x => negb (isPathSeparator x) = true) (String.list_ascii_of_string s).
Proof.
  intros H%hasNo_Forall. eapply Forall_impl; [exact H|].
  intros x Hx. unfold isPathSeparator. by rewrite Hx.
Qed.

Lemma base_ext_name (rdir : list Ascii.ascii) (name e : string) :
  hasNo "/"%char name = true -> hasNo "/"%char e = true -> hasNo "."%char e = true ->
  (rdir = [] \/ exists rest, rdir = "/"%char :: rest) ->
  let path := String.string_of_list_ascii
                (rev rdir ++ String.list_ascii_of_string (name ++ "." ++ e)) in
  base path = (name ++ "." ++ e)%string /\ ext (name ++ "." ++ e) = ("." ++ e)%string.
Proof.
  intros Hn He Hd Hdir path.
  assert (Hrev : rev (String.list_ascii_of_string (name ++ "." ++ e))
                 = rev (String.list_ascii_of_string e) ++ "."%char
                   :: rev (String.list_ascii_of_string name)).
  { rewrite !list_ascii_of_string_app. cbn [String.list_ascii_of_string app].
    rewrite rev_app_distr. cbn [rev]. by rewrite <- app_assoc. }
  assert (Hse : Forall (fun x => isPathSeparator x = false)
                  (rev (String.list_ascii_of_string e))).
  { apply Forall_rev. apply hasNo_Forall in He. eapply Forall_impl; [exact He|]. done. }
  split.
  - unfold base, path. rewrite String.list_ascii_of_string_of_list_ascii.
    destruct (String.eqb _ "") eqn:E.
    { apply String.eqb_eq, (f_equal String.list_ascii_of_string) in E.
      rewrite String.list_ascii_of_string_of_list_ascii, !list_ascii_of_string_app in E.
      cbn [String.list_ascii_of_string app] in E.
      apply app_eq_nil in E as [_ E]. apply app_eq_nil in E as [_ E]. discriminate. }
    rewrite rev_app_distr, rev_involutive, Hrev, <- app_assoc. cbn [app].
    rewrite dropWhileL_stop by done.
    rewrite app_comm_cons, app_assoc, takeWhileL_app.
    2:{ apply Forall_app. split.
        - eapply Forall_impl; [exact Hse|]. intros x ->. done.
        - constructor; [done|]. apply Forall_rev, Forall_noSep, Hn. }
    rewrite <- Hrev.
    destruct Hdir as [->|[rest ->]].
    + cbn [takeWhileL]. rewrite app_nil_r.
      destruct (rev (String.list_ascii_of_string (name ++ "." ++ e))) eqn:Hr.
      { rewrite Hrev in Hr. by destruct (rev (String.list_ascii_of_string e)). }
      rewrite <- Hr, rev_involutive. apply String.string_of_list_ascii_of_string.
    + change (takeWhileL (fun c => negb (isPathSeparator c)) ("/"%char :: rest))
        with (@nil Ascii.ascii).
      rewrite app_nil_r.
      destruct (rev (String.list_ascii_of_string (name ++ "." ++ e))) eqn:Hr.
      { rewrite Hrev in Hr. by destruct (rev (String.list_ascii_of_string e)). }
      rewrite <- Hr, rev_involutive. apply String.string_of_list_ascii_of_string.
  - unfold ext. rewrite Hrev, extScan_dot.
    + rewrite app_nil_r, rev_involutive. simpl.
      rewrite String.string_of_list_ascii_of_string. done.
    + apply Forall_rev. apply hasNo_Forall in He, Hd.
      apply Forall_and; split; [|done].
      eapply Forall_impl; [exact He|]. done.
Qed.

(** [versionFromPath] returns the file name without its directory and
    without its last extension: for a name without [/] and an extension
    without [/] or [.], both [dir/name.ext] and [name.ext] give [name]
    (the name itself may contain dots, as in [v1.33.0.yaml]). *)
Theorem versionFromPath_strips_dir_and_ext (dir name e : string) :
  hasNo "/"%char name = true -> hasNo "/"%char e = true -> hasNo "."%char e = true ->
  versionFromPath (dir ++ "/" ++ name ++ "." ++ e)%string = name /\
  versionFromPath (name ++ "." ++ e)%string = name.
Proof.
  intros Hn He Hd. split.
  - destruct (base_ext_name ("/"%char :: rev (String.list_ascii_of_string dir)) name e
                Hn He Hd (or_intror (ex_intro _ _ eq_refl))) as [Hb Hx].
    assert (Hp : (dir ++ "/" ++ name ++ "." ++ e)%string
                 = String.string_of_list_ascii
                     (rev ("/"%char :: rev (String.list_ascii_of_string dir))
                      ++ String.list_ascii_of_string (name ++ "." ++ e))).
    { rewrite <- (String.string_of_list_ascii_of_string (dir ++ _)).
      f_equal. rewrite list_ascii_of_string_app. cbn [rev].
      rewrite rev_involutive, <- app_assoc. reflexivity. }
    unfold versionFromPath. rewrite Hp, Hb, Hx. apply trimSuffix_app.
  - destruct (base_ext_name [] name e Hn He Hd (or_introl eq_refl)) as [Hb Hx].
    cbn [rev app] in Hb. rewrite String.string_of_list_ascii_of_string in Hb.
    unfold versionFromPath. rewrite Hb, Hx. apply trimSuffix_app.
Qed.

(** *** The earlier version of the tool *)

Lemma V0_indexMetrics_key (metrics : list V0.Metric) k m :
  V0.indexMetrics metrics !! k = Some m ->
  k = mkMetricKey (V0.Namespace m) (V0.Subsystem m) (V0.Name m).
Proof.
  unfold V0.indexMetrics.
  cut (forall acc : gmap MetricKey V0.Metric,
         (forall k m, acc !! k = Some m ->
            k = mkMetricKey (V0.Namespace m) (V0.Subsystem m) (V0.Name m)) ->
         forall k m, fold_left (fun metricMap metric =>
             <[mkMetricKey (V0.Namespace metric) (V0.Subsystem metric) (V0.Name metric)
               := metric]> metricMap) metrics acc !! k = Some m ->
         k = mkMetricKey (V0.Namespace m) (V0.Subsystem m) (V0.Name m)).
  { intros H. apply H. intros ??. by rewrite lookup_empty. }
  induction metrics as [|x metrics IH]; intros acc Hacc; simpl; [done|].
  apply IH. intros k' m'.
  destruct (decide (k' = mkMetricKey (V0.Namespace x) (V0.Subsystem x) (V0.Name x))) as [->|Hne].
  - rewrite lookup_insert_eq. by intros [= ->].
  - rewrite lookup_insert_ne by congruence. apply Hacc.
Qed.

Lemma V0_metricChanges_no_namespace (o n : V0.Metric) :
  V0.Namespace o = V0.Namespace n ->
  forall c, c ∈ V0.metricChanges o n ->
  forall a b, c <> ("Namespace changed from '" ++ a ++ "' to '" ++ b ++ "'")%string.
Proof.
  intros Hns c Hc a b ->. revert Hc. unfold V0.metricChanges.
  rewrite Hns, String.eqb_refl. cbn [negb].
  repeat case_match; intros Hc;
    repeat match goal with
    | H : _ ∈ _ ++ _ |- _ => apply elem_of_app in H as [H|H]
    | H : _ ∈ [_] |- _ => apply list_elem_of_singleton in H
    | H : _ ∈ [] |- _ => by apply elem_of_nil in H
    end; discriminate.
Qed.

(** In the earlier version, snapshots are keyed by the struct of namespace,
    subsystem and name, so two records compared as the same metric always
    have the same namespace: whatever the iteration order, no change it
    reports is a "Namespace changed" message. *)
Theorem V0_compareMetrics_no_namespace_change (oldMetrics newMetrics : list V0.Metric)
    newIter oldIter :
  newIter ≡ₚ map_to_list (V0.indexMetrics newMetrics) ->
  forall d, d ∈ V0.compareMetricsIn newIter oldIter
                  (V0.indexMetrics oldMetrics) (V0.indexMetrics newMetrics) ->
  forall c, c ∈ V0.Changes d ->
  forall a b, c <> ("Namespace changed from '" ++ a ++ "' to '" ++ b ++ "'")%string.
Proof.
  intros Hn d Hd.
  set (P := fun d : V0.MetricDiff => forall c, c ∈ V0.Changes d ->
              forall a b, c <> ("Namespace changed from '" ++ a ++ "' to '" ++ b ++ "'")%string).
  change (P d). revert d Hd. apply Forall_forall.
  unfold V0.compareMetricsIn. rewrite merge_sort_Permutation.
  apply Forall_fold_left.
  - apply Forall_fold_left; [constructor|].
    intros acc [k nm] Hkv Hacc. simpl.
    rewrite Hn, elem_of_map_to_list in Hkv.
    destruct (V0.indexMetrics oldMetrics !! k) as [om|] eqn:Hk.
    + destruct (Nat.ltb 0 _); [|done]. apply Forall_app. split; [done|].
      constructor; [|constructor]. unfold P. cbn [V0.Changes].
      apply V0_metricChanges_no_namespace.
      apply V0_indexMetrics_key in Hk, Hkv. rewrite Hkv in Hk.
      by injection Hk.
    + apply Forall_app. split; [done|]. constructor; [|constructor].
      intros c Hc. by apply elem_of_nil in Hc.
  - intros acc [k om] _ Hacc. simpl.
    destruct (V0.indexMetrics newMetrics !! k); [done|].
    apply Forall_app. split; [done|]. constructor; [|constructor].
    intros c Hc. by apply elem_of_nil in Hc.
Qed.

Lemma substring_length (s : string) (m : nat) :
  m <= String.length s -> String.length (String.substring 0 m s) = m.
Proof.
  revert m. induction s as [|c s IH]; intros [|m] Hm; simpl in *; try done; [lia|].
  rewrite IH; [done|lia].
Qed.

(** For a limit of at least 3 bytes, [truncateString] never panics and
    never returns more bytes than the limit. *)
Theorem V0_truncateString_bound fields (s : string) (maxLen : Z) :
  (3 <= maxLen)%Z ->
  exists t, V0.truncateString fields s maxLen = Some t /\
            (Z.of_nat (String.length t) <= maxLen)%Z.
Proof.
  intros H. unfold V0.truncateString.
  set (u := join (fields _) " ").
  destruct (Z.leb_spec (Z.of_nat (String.length u)) maxLen) as [Hle|Hgt].
  - by exists u.
  - destruct (Z.ltb_spec (maxLen - 3) 0); [lia|].
    eexists. split; [reflexivity|].
    rewrite string_length_append, substring_length by lia. simpl. lia.
Qed.

(** *** Instances of the hypotheses *)

Lemma escapePipes_pipes_escaped_witness :
  String.get 2 (escapePipes "a|b") = Some "|"%char /\
  exists j, 2 = S j /\ String.get j (escapePipes "a|b") = Some "\"%char.
Proof.
  assert (H : String.get 2 (escapePipes "a|b") = Some "|"%char) by reflexivity.
  split; [exact H|]. exact (escapePipes_pipes_escaped "a|b" 2 H).
Defined.

Lemma escapePipes_inj_witness :
  escapePipes "x|y" = escapePipes "x|y" /\ "x|y" = "x|y".
Proof.
  assert (H : escapePipes "x|y" = escapePipes "x|y") by reflexivity.
  split; [exact H|]. exact (escapePipes_inj "x|y" "x|y" H).
Defined.

Lemma dropDiffHeader_drops_three_lines_witness :
  hasNo nlChar "--- a" = true /\ hasNo nlChar "+++ b" = true /\
  hasNo nlChar "@@ -1 +1 @@" = true /\
  dropDiffHeader ("--- a" ++ nl ++ "+++ b" ++ nl ++ "@@ -1 +1 @@" ++ nl
                  ++ "-x" ++ nl ++ "+y" ++ nl)%string = ("-x" ++ nl ++ "+y" ++ nl)%string.
Proof.
  assert (H1 : hasNo nlChar "--- a" = true) by reflexivity.
  assert (H2 : hasNo nlChar "+++ b" = true) by reflexivity.
  assert (H3 : hasNo nlChar "@@ -1 +1 @@" = true) by reflexivity.
  split; [exact H1|]. split; [exact H2|]. split; [exact H3|].
  exact (dropDiffHeader_drops_three_lines "--- a" "+++ b" "@@ -1 +1 @@"
           ("-x" ++ nl ++ "+y" ++ nl) H1 H2 H3).
Defined.


Lemma versionFromPath_strips_dir_and_ext_witness :
  hasNo "/"%char "v1.33.0" = true /\ hasNo "/"%char "yaml" = true /\
  hasNo "."%char "yaml" = true /\
  versionFromPath ("data" ++ "/" ++ "v1.33.0" ++ "." ++ "yaml")%string = "v1.33.0" /\
  versionFromPath ("v1.33.0" ++ "." ++ "yaml")%string = "v1.33.0".
Proof.
  assert (H1 : hasNo "/"%char "v1.33.0" = true) by reflexivity.
  assert (H2 : hasNo "/"%char "yaml" = true) by reflexivity.
  assert (H3 : hasNo "."%char "yaml" = true) by reflexivity.
  split; [exact H1|]. split; [exact H2|]. split; [exact H3|].
  exact (versionFromPath_strips_dir_and_ext "data" "v1.33.0" "yaml" H1 H2 H3).
Defined.

Lemma V0_compareMetrics_no_namespace_change_witness :
  v0Diff ∈ V0.compareMetrics (V0.indexMetrics [v0Old]) (V0.indexMetrics [v0New]) /\
  "Help text changed" ∈ V0.Changes v0Diff /\
  "Help text changed" <> ("Namespace changed from '" ++ "ns" ++ "' to '" ++ "ns" ++ "'")%string.
Proof.
  assert (Hd : v0Diff ∈ V0.compareMetrics (V0.indexMetrics [v0Old]) (V0.indexMetrics [v0New])).
  { assert (E : V0.compareMetrics (V0.indexMetrics [v0Old]) (V0.indexMetrics [v0New])
                = [v0Diff]) by (vm_compute; reflexivity).
    rewrite E. apply list_elem_of_here. }
  assert (Hc : "Help text changed" ∈ V0.Changes v0Diff) by apply list_elem_of_here.
  split; [exact Hd|]. split; [exact Hc|].
  exact (V0_compareMetrics_no_namespace_change [v0Old] [v0New] _ _ (reflexivity _)
           v0Diff Hd "Help text changed" Hc "ns" "ns").
Defined.

Lemma V0_truncateString_bound_witness :
  (3 <= 100)%Z /\
  exists t, V0.truncateString (fun s => [s]) "a long help text" 100 = Some t /\
            (Z.of_nat (String.length t) <= 100)%Z.
Proof.
  assert (H : (3 <= 100)%Z) by lia.
  split; [exact H|]. exact (V0_truncateString_bound (fun s => [s]) "a long help text" 100 H).
Defined.
